(** * cal.com web app: app/credential resolver and disposable-link booking page

    Shallow embedding of
    - [apps/web/lib/apps/utils/AppUtils.ts] ([getApps], [hasIntegration],
      [hasIntegrationInstalled], [getAppName], [getAppType]), and
    - the disposable-link booking page loader ([getServerSideProps]),
    followed by the properties the specification states about them. *)

From Stdlib Require Import String Ascii List ZArith Bool Lia.
From Stdlib Require Import NArith DecimalString DecimalN.
Import ListNotations.
Local Open Scope string_scope.

(* ================================================================== *)
(** ** The fragment of JavaScript the two files rely on *)
(* ================================================================== *)

Module JS.

(** A JavaScript string is a sequence of code units; [string] gives the
    sequences over 8-bit units, which covers every literal of the source. *)

(** [String.prototype.endsWith(searchString)] with the default end position:
    the search string must fit, and the last [k] units must be equal to it. *)
Definition endsWith (s searchString : string) : bool :=
  let len := String.length s in
  let k := String.length searchString in
  (k <=? len)%nat && (substring (len - k) k s =? searchString).

(** [String.prototype.includes(searchString)]: some position of [s] starts
    an occurrence of [searchString]. *)
Fixpoint includes (s searchString : string) : bool :=
  prefix searchString s ||
  match s with
  | EmptyString => false
  | String _ s' => includes s' searchString
  end.

(** JSON payloads as Prisma hands them over ([JsonValue]); numbers are kept
    to the integers, only their being zero is ever observed. *)
#[local] Set Warnings "-register-all".
Inductive JSON : Type :=
| JNull
| JBool (b : bool)
| JNumber (n : Z)
| JString (s : string)
| JArray (elems : list JSON)
| JObject (fields : list (string * JSON)).

(** ToBoolean on a JSON value. *)
Definition truthy (v : JSON) : bool :=
  match v with
  | JNull => false
  | JBool b => b
  | JNumber n => negb (n =? 0)%Z
  | JString s => negb (s =? EmptyString)
  | JArray _ => true
  | JObject _ => true
  end.

(** Own data properties of an object, in enumeration order. *)
Fixpoint own {A : Type} (k : string) (props : list (string * A)) : option A :=
  match props with
  | [] => None
  | (k', v) :: rest => if k' =? k then Some v else own k rest
  end.

(** [v.k] for a non-null JSON value [v] and a property name [k] that no
    prototype defines: the own property of an object, [undefined] ([None])
    on anything else. *)
Definition member (v : JSON) (k : string) : option JSON :=
  match v with
  | JObject fields => own k fields
  | _ => None
  end.

(** ToBoolean on a nullable number: [null], [undefined] and [0] are falsy. *)
Definition truthyNumber (n : option Z) : bool :=
  match n with
  | Some z => negb (z =? 0)%Z
  | None => false
  end.

(** ToBoolean on a nullable string: [null], [undefined] and the empty string are falsy. *)
Definition truthyString (s : option string) : bool :=
  match s with
  | Some x => negb (x =? EmptyString)
  | None => false
  end.

(** ToBoolean on an optional boolean ([installed?: boolean]). *)
Definition truthyFlag (b : option bool) : bool :=
  match b with
  | Some x => x
  | None => false
  end.

(** What can go wrong at run time in the modelled code. *)
Inductive Error : Type :=
| TypeError                       (* property read on [undefined] or [null] *)
| ExpectedString.                 (* thrown by [asStringOrThrow] *)

(** The result of running a piece of code: a value or a raised error. *)
Inductive Completion (A : Type) : Type :=
| Return (a : A)
| Throw (e : Error).
Arguments Return {A} a.
Arguments Throw {A} e.

(** Every object literal inherits from [Object.prototype].  Its function
    valued properties, each with the [name] of the function found there. *)
Definition Object_prototype_functions : list (string * string) :=
  [ ("constructor", "Object");
    ("__defineGetter__", "__defineGetter__");
    ("__defineSetter__", "__defineSetter__");
    ("hasOwnProperty", "hasOwnProperty");
    ("__lookupGetter__", "__lookupGetter__");
    ("__lookupSetter__", "__lookupSetter__");
    ("isPrototypeOf", "isPrototypeOf");
    ("propertyIsEnumerable", "propertyIsEnumerable");
    ("toString", "toString");
    ("valueOf", "valueOf");
    ("toLocaleString", "toLocaleString") ].

(** What [obj[k]] evaluates to on an object literal with own properties of
    type [A]. *)
Inductive Looked (A : Type) : Type :=
| OwnProperty (a : A)             (* an own property of the literal *)
| BuiltinFunction (fname : string) (* inherited; a function named [fname] *)
| PrototypeObject                 (* [__proto__]: [Object.prototype] itself *)
| Undefined.
Arguments OwnProperty {A} a.
Arguments BuiltinFunction {A} fname.
Arguments PrototypeObject {A}.
Arguments Undefined {A}.

(** [obj[k]]: own properties first, then the prototype chain. *)
Definition lookup {A : Type} (props : list (string * A)) (k : string) : Looked A :=
  match own k props with
  | Some a => OwnProperty a
  | None =>
      match own k Object_prototype_functions with
      | Some fname => BuiltinFunction fname
      | None => if k =? "__proto__" then PrototypeObject else Undefined
      end
  end.

(** [Object.values(obj)] on own properties kept in enumeration order. *)
Definition Object_values {A : Type} (props : list (string * A)) : list A :=
  map snd props.

(** A string-or-undefined result. *)
Inductive StringOrUndefined : Type :=
| Str (s : string)
| Undef.

End JS.

(* ================================================================== *)
(** ** Records shared by the two files *)
(* ================================================================== *)

(** A credential row as the persistence layer returns it, secret payload
    included. *)
Record Credential : Type := mkCredential {
  cred_id : Z;
  cred_type : string;
  cred_key : JS.JSON
}.

(** [CredentialData]: the projection [{id, type}]. *)
Record CredentialData : Type := mkCredentialData {
  cd_id : Z;
  cd_type : string
}.

(* ================================================================== *)
(** ** apps/web/lib/apps/utils/AppUtils.ts *)
(* ================================================================== *)

Module AppUtils.

(** A catalog entry ([App] metadata): the fields the file reads, the
    remaining metadata carried along as it is. *)
Record App : Type := mkApp {
  app_type : string;
  app_name : string;
  app_installed : option bool;
  app_rest : list (string * JS.JSON)
}.

(** One entry of [getApps]'s result: [{...app, credential, credentials}]. *)
Record AppMetaEntry : Type := mkAppMetaEntry {
  ame_app : App;
  credential : option CredentialData;
  credentials : list CredentialData
}.

Definition AppMeta : Type := list AppMetaEntry.

(** [_.pick(credential, ["id", "type"])] *)
Definition pick_id_type (c : Credential) : CredentialData :=
  {| cd_id := cred_id c; cd_type := cred_type c |}.

(** [xs[0] || null] on an array of objects. *)
Definition first_or_null {A : Type} (xs : list A) : option A :=
  match nth_error xs 0 with
  | Some x => Some x
  | None => None
  end.

Section Catalog.

(** [ALL_APPS_MAP]: the merged static catalog, given by its own
    properties in enumeration order.  The configuration modules it is
    spread from are not part of this file. *)
Variable ALL_APPS_MAP : list (string * App).

Definition ALL_APPS : list App := JS.Object_values ALL_APPS_MAP.

Definition getApps (userCredentials : list Credential) : AppMeta :=
  map
    (fun app =>
       let credentials :=
         map pick_id_type
             (filter (fun credential => cred_type credential =? app_type app)
                     userCredentials) in
       let credential := first_or_null credentials in
       {| ame_app := app;
          credential := credential;
          credentials := credentials |})
    ALL_APPS.

Definition hasIntegrationInstalled (type : string) : bool :=
  existsb (fun app => (app_type app =? type) && JS.truthyFlag (app_installed app))
          ALL_APPS.

Definition getAppName (name : string) : JS.Completion JS.StringOrUndefined :=
  match JS.lookup ALL_APPS_MAP name with
  | JS.OwnProperty app => JS.Return (JS.Str (app_name app))
  | JS.BuiltinFunction fname => JS.Return (JS.Str fname)
  | JS.PrototypeObject => JS.Return JS.Undef
  | JS.Undefined => JS.Throw JS.TypeError
  end.

Definition getAppType (name : string) : JS.Completion string :=
  match JS.lookup ALL_APPS_MAP name with
  | JS.OwnProperty app =>
      let type := app_type app in
      if JS.endsWith type "_calendar" then JS.Return "Calendar"
      else if JS.endsWith type "_payment" then JS.Return "Payment"
      else JS.Return "Unknown"
  | JS.BuiltinFunction _ => JS.Throw JS.TypeError   (* [type] is undefined *)
  | JS.PrototypeObject => JS.Throw JS.TypeError     (* [type] is undefined *)
  | JS.Undefined => JS.Throw JS.TypeError
  end.

End Catalog.

Definition hasIntegration (apps : AppMeta) (type : string) : bool :=
  match
    find
      (fun app =>
         (app_type (ame_app app) =? type) &&
         JS.truthyFlag (app_installed (ame_app app)) &&
         ((type =? "daily_video") ||
          (type =? "jitsi_video") ||
          (type =? "huddle01_video") ||
          (0 <? List.length (credentials app))%nat))
      apps
  with
  | Some _ => true
  | None => false
  end.

End AppUtils.

(* ================================================================== *)
(** ** The disposable-link booking page: [getServerSideProps] *)
(* ================================================================== *)

Module Book.

Import JS.

(** A value of [context.query]: absent, one string, or a repeated
    parameter. *)
Inductive QueryValue : Type :=
| QAbsent
| QOne (s : string)
| QMany (l : list string).

Record Context : Type := mkContext {
  query_link : QueryValue;
  query_slug : QueryValue;
  query_rescheduleUid : QueryValue;
  locale : option string
}.

(** Modelled from the spec: [asStringOrThrow] of [@lib/asStringOrNull] is
    imported, not defined, by the page; the string-extraction helper
    returns its argument when it is a string and throws otherwise. *)
Definition asStringOrThrow (v : QueryValue) : Completion string :=
  match v with
  | QOne s => Return s
  | QAbsent => Throw ExpectedString
  | QMany _ => Throw ExpectedString
  end.

(** *** Rows, as the [select] clauses shape them *)

(** [eventType.users] *)
Record EventTypeUser : Type := mkEventTypeUser {
  etu_id : Z;
  etu_username : option string;
  etu_name : option string;
  etu_email : string;
  etu_bio : option string;
  etu_avatar : option string;
  etu_theme : option string
}.

(** [eventTypeSelect]; dates are instants, relation rows that the page
    hands through unread are JSON-shaped. *)
Record EventType : Type := mkEventType {
  et_id : Z;
  et_title : string;
  et_slug : string;
  et_description : option string;
  et_length : Z;
  et_locations : JSON;
  et_customInputs : list JSON;
  et_periodType : string;
  et_periodDays : option Z;
  et_periodStartDate : option Z;
  et_periodEndDate : option Z;
  et_metadata : JSON;
  et_periodCountCalendarDays : option bool;
  et_price : Z;
  et_currency : string;
  et_disableGuests : bool;
  et_userId : option Z;
  et_users : list EventTypeUser
}.

(** [disposableLink.users] *)
Record LinkUser : Type := mkLinkUser {
  lu_id : Z;
  lu_avatar : option string;
  lu_name : option string;
  lu_username : option string;
  lu_hideBranding : bool;
  lu_plan : string;
  lu_timeZone : string
}.

(** The record [prisma.disposableLink.findUnique] selects. *)
Record DisposableLink : Type := mkDisposableLink {
  dl_users : list LinkUser;
  dl_userId : option Z;
  dl_eventType : option EventType;
  dl_availability : list JSON;
  dl_timeZone : option string;
  dl_expired : bool
}.

(** A row of [prisma.user.findMany]. *)
Record User : Type := mkUser {
  user_id : Z;
  user_username : option string;
  user_name : option string;
  user_email : string;
  user_bio : option string;
  user_avatar : option string;
  user_theme : option string;
  user_brandColor : string;
  user_darkBrandColor : string;
  user_allowDynamicBooking : option bool
}.

Record Attendee : Type := mkAttendee {
  att_email : string;
  att_name : string
}.

(** What [getBooking] selects: [{description, attendees}]. *)
Record Booking : Type := mkBooking {
  bk_description : option string;
  bk_attendees : list Attendee
}.

(** *** The persistence layer *)

(** The answers of the four queries the page can issue. *)
Record Prisma : Type := mkPrisma {
  db_disposableLink_findUnique : string -> QueryValue -> option DisposableLink;
  db_user_findMany : Z -> list User;
  db_credential_findMany : list Z -> list Credential;
  db_booking_findFirst : string -> option Booking
}.

(** One issued query. *)
Inductive Fetch : Type :=
| FetchDisposableLink (link : string) (slug : QueryValue)
| FetchUsers (id : Z)
| FetchCredentials (userIds : list Z)
| FetchBooking (uid : string).

(** *** Running code: a log of issued queries, and errors *)

Definition M (A : Type) : Type := list Fetch -> Completion A * list Fetch.

Definition ret {A : Type} (a : A) : M A := fun log => (Return a, log).

Definition throw {A : Type} (e : Error) : M A := fun log => (Throw e, log).

Definition bind {A B : Type} (c : M A) (k : A -> M B) : M B :=
  fun log =>
    match c log with
    | (Return a, log') => k a log'
    | (Throw e, log') => (Throw e, log')
    end.

Definition lift {A : Type} (c : Completion A) : M A := fun log => (c, log).

Definition issue {A : Type} (q : Fetch) (answer : A) : M A :=
  fun log => (Return answer, (log ++ [q])%list).

Declare Scope loader_scope.
Delimit Scope loader_scope with loader.
Notation "x <- c ;; k" := (bind c (fun x => k))
  (at level 100, c at next level, right associativity) : loader_scope.
Local Open Scope loader_scope.

(** *** What the page returns *)

Record Profile : Type := mkProfile {
  profile_name : option string;
  profile_image : option string;
  profile_slug : option string;
  profile_theme : option string;
  profile_brandColor : string;
  profile_darkBrandColor : string;
  profile_eventName : option string
}.

(** [eventTypeObject]: the event type with [metadata] defaulted, the
    web3 flag added and the period dates in string form. *)
Record EventTypeObject : Type := mkEventTypeObject {
  eto_id : Z;
  eto_title : string;
  eto_slug : string;
  eto_description : option string;
  eto_length : Z;
  eto_locations : JSON;
  eto_customInputs : list JSON;
  eto_periodType : string;
  eto_periodDays : option Z;
  eto_periodStartDate : option string;
  eto_periodEndDate : option string;
  eto_metadata : JSON;
  eto_periodCountCalendarDays : option bool;
  eto_price : Z;
  eto_currency : string;
  eto_disableGuests : bool;
  eto_userId : option Z;
  eto_users : list EventTypeUser;
  eto_isWeb3Active : JSON
}.

Record DisposableBookingObject : Type := mkDisposableBookingObject {
  dbo_slug : QueryValue;
  dbo_link : string
}.

Record PageProps : Type := mkPageProps {
  locationLabels : list (string * string);
  profile : Profile;
  eventType : EventTypeObject;
  booking : option Booking;
  trpcState : JSON;
  isDynamicGroupBooking : bool;
  isDisposableBookingLink : bool;
  disposableBookingObject : DisposableBookingObject
}.

Inductive Result : Type :=
| NotFound                         (* [{ notFound: true }] *)
| Props (props : PageProps).       (* [{ props: ... }] *)

(** [a || b] on nullable numbers. *)
Definition orNumber (a b : option Z) : option Z :=
  if truthyNumber a then a else b.

(** [a || b] on nullable strings. *)
Definition orString (a b : option string) : option string :=
  if truthyString a then a else b.

(** [credentials.find((credential) => credential.type.includes("_web3"))] *)
Definition find_web3 (credentials : list Credential) : option Credential :=
  find (fun credential => includes (cred_type credential) "_web3") credentials.

(** The expression bound to [isWeb3Active]:
    [web3Credentials && web3Credentials.key
       ? (web3Credentials.key.isWeb3Active || false) : false] *)
Definition isWeb3Active_of (web3Credentials : option Credential) : JSON :=
  match web3Credentials with
  | Some c =>
      if truthy (cred_key c) then
        match member (cred_key c) "isWeb3Active" with
        | Some v => if truthy v then v else JBool false
        | None => JBool false
        end
      else JBool false
  | None => JBool false
  end.

(** [ssrInit(context)]: the helper object whose [dehydrate()] the page
    calls at the end. *)
Record Ssr : Type := mkSsr {
  dehydrate : JSON
}.

Section Loader.

(** Imported helpers whose code lies outside the page. *)
Variable ssrInit : Context -> Ssr.
Variable getTranslation : string -> string -> (string -> string).
Variable getLocationLabels : (string -> string) -> list (string * string).
(** [Date.prototype.toString], which depends on the host's time zone. *)
Variable Date_toString : Z -> string.

Variable prisma : Prisma.

Definition disposableLink_findUnique (link : string) (slug : QueryValue)
  : M (option DisposableLink) :=
  issue (FetchDisposableLink link slug)
        (db_disposableLink_findUnique prisma link slug).

Definition user_findMany (id : Z) : M (list User) :=
  issue (FetchUsers id) (db_user_findMany prisma id).

Definition credential_findMany (userIds : list Z) : M (list Credential) :=
  issue (FetchCredentials userIds) (db_credential_findMany prisma userIds).

Definition booking_findFirst (uid : string) : M (option Booking) :=
  issue (FetchBooking uid) (db_booking_findFirst prisma uid).

(** The inner function [getBooking]. *)
Definition getBooking (context : Context) : M (option Booking) :=
  uid <- lift (asStringOrThrow (query_rescheduleUid context)) ;;
  booking_findFirst uid.

(** [disposableType?.userId || disposableType?.eventType.userId] *)
Definition resolveUserId (disposableType : option DisposableLink)
  : Completion (option Z) :=
  match disposableType with
  | None => Return None
  | Some d =>
      if truthyNumber (dl_userId d) then Return (dl_userId d)
      else
        match dl_eventType d with
        | Some e => Return (et_userId e)
        | None => Throw TypeError
        end
  end.

(** The object [eventTypeObject] built from [eventTypeRaw] and the
    fetched credentials. *)
Definition eventTypeObject_of (eventTypeRaw : EventType)
           (credentials : list Credential) : EventTypeObject :=
  let web3Credentials := find_web3 credentials in
  {| eto_id := et_id eventTypeRaw;
     eto_title := et_title eventTypeRaw;
     eto_slug := et_slug eventTypeRaw;
     eto_description := et_description eventTypeRaw;
     eto_length := et_length eventTypeRaw;
     eto_locations := et_locations eventTypeRaw;
     eto_customInputs := et_customInputs eventTypeRaw;
     eto_periodType := et_periodType eventTypeRaw;
     eto_periodDays := et_periodDays eventTypeRaw;
     eto_periodStartDate := option_map Date_toString (et_periodStartDate eventTypeRaw);
     eto_periodEndDate := option_map Date_toString (et_periodEndDate eventTypeRaw);
     eto_metadata :=
       if truthy (et_metadata eventTypeRaw) then et_metadata eventTypeRaw
       else JObject [];
     eto_periodCountCalendarDays := et_periodCountCalendarDays eventTypeRaw;
     eto_price := et_price eventTypeRaw;
     eto_currency := et_currency eventTypeRaw;
     eto_disableGuests := et_disableGuests eventTypeRaw;
     eto_userId := et_userId eventTypeRaw;
     eto_users := et_users eventTypeRaw;
     eto_isWeb3Active := isWeb3Active_of web3Credentials |}.

Definition profile_of (user : User) : Profile :=
  {| profile_name := orString (user_name user) (user_username user);
     profile_image := user_avatar user;
     profile_slug := user_username user;
     profile_theme := user_theme user;
     profile_brandColor := user_brandColor user;
     profile_darkBrandColor := user_darkBrandColor user;
     profile_eventName := None |}.

Definition getServerSideProps (context : Context) : M Result :=
  let ssr := ssrInit context in
  link <- lift (asStringOrThrow (query_link context)) ;;
  let slug := query_slug context in
  disposableType <- disposableLink_findUnique link slug ;;
  (* Handle expired links here *)
  let linkExpired := option_map dl_expired disposableType in
  if truthyFlag linkExpired then ret NotFound
  else
    userId <- lift (resolveUserId disposableType) ;;
    if negb (truthyNumber userId) then ret NotFound
    else
      match userId with
      | None => ret NotFound          (* excluded by the test above *)
      | Some userId =>
          users <- user_findMany userId ;;
          match users with
          | [] => ret NotFound
          | user :: _ =>
              let eventTypeRaw :=
                match disposableType with
                | Some d => dl_eventType d
                | None => None
                end in
              match eventTypeRaw with
              | None => ret NotFound
              | Some eventTypeRaw =>
                  credentials <- credential_findMany (map user_id users) ;;
                  let eventTypeObject :=
                    eventTypeObject_of eventTypeRaw credentials in
                  let disposableBookingObject :=
                    {| dbo_slug := slug; dbo_link := link |} in
                  let booking : option Booking := None in
                  let profile := profile_of user in
                  let t :=
                    getTranslation
                      (match locale context with
                       | Some l => l
                       | None => "en"
                       end)
                      "common" in
                  ret (Props
                         {| locationLabels := getLocationLabels t;
                            profile := profile;
                            eventType := eventTypeObject;
                            booking := booking;
                            trpcState := dehydrate ssr;
                            isDynamicGroupBooking := false;
                            isDisposableBookingLink := true;
                            disposableBookingObject := disposableBookingObject |})
              end
          end
      end.

End Loader.

End Book.

(* ================================================================== *)
(** ** Vocabulary of the properties *)
(* ================================================================== *)

(** [s] ends with [p]. *)
Definition Suffix (p s : string) : Prop := exists a, s = a ++ p.

(** [p] occurs in [s]. *)
Definition Contains (p s : string) : Prop := exists a b, s = a ++ p ++ b.

(** [ys] is [xs] with exactly the elements satisfying [P] kept, in the
    order of [xs]. *)
Inductive kept_in_order {A : Type} (P : A -> Prop) : list A -> list A -> Prop :=
| kept_nil : kept_in_order P [] []
| kept_take x xs ys :
    P x -> kept_in_order P xs ys -> kept_in_order P (x :: xs) (x :: ys)
| kept_drop x xs ys :
    ~ P x -> kept_in_order P xs ys -> kept_in_order P (x :: xs) ys.

(** A credential and the [{id, type}] summary made of it. *)
Definition summary_of (c : Credential) (cd : CredentialData) : Prop :=
  cd_id cd = cred_id c /\ cd_type cd = cred_type c.

(** [c] is the first credential of [creds], in their order, whose type
    contains "_web3". *)
Definition first_web3 (creds : list Credential) (c : Credential) : Prop :=
  exists pre post,
    creds = (pre ++ c :: post)%list /\
    Contains "_web3" (cred_type c) /\
    forall x, In x pre -> ~ Contains "_web3" (cred_type x).

(** [k] names a property that every object literal inherits. *)
Definition inherited (k : string) : Prop :=
  In k (map fst JS.Object_prototype_functions) \/ k = "__proto__".

(* ================================================================== *)
(** ** Sample data *)
(* ================================================================== *)

Module Sample.

Import AppUtils.

Definition google_calendar : App :=
  {| app_type := "google_calendar"; app_name := "Google Calendar";
     app_installed := Some true; app_rest := [] |}.

Definition stripe_payment : App :=
  {| app_type := "stripe_payment"; app_name := "Stripe";
     app_installed := Some true; app_rest := [] |}.

Definition zoom_video : App :=
  {| app_type := "zoom_video"; app_name := "Zoom Video";
     app_installed := Some true; app_rest := [] |}.

Definition daily_video : App :=
  {| app_type := "daily_video"; app_name := "Daily.co Video";
     app_installed := Some true; app_rest := [] |}.

Definition catalog : list (string * App) :=
  [ ("google_calendar", google_calendar);
    ("stripe_payment", stripe_payment);
    ("zoom_video", zoom_video);
    ("daily_video", daily_video) ].

Definition userCredentials : list Credential :=
  [ {| cred_id := 1; cred_type := "zoom_video";
       cred_key := JS.JObject [("access_token", JS.JString "s3cr3t")] |};
    {| cred_id := 2; cred_type := "google_calendar"; cred_key := JS.JNull |};
    {| cred_id := 3; cred_type := "zoom_video"; cred_key := JS.JNull |} ].

Import Book.

Definition eventType30 : EventType :=
  {| et_id := 30; et_title := "Intro call"; et_slug := "intro";
     et_description := None; et_length := 30; et_locations := JS.JNull;
     et_customInputs := []; et_periodType := "UNLIMITED";
     et_periodDays := None; et_periodStartDate := Some 1650000000000%Z;
     et_periodEndDate := None; et_metadata := JS.JNull;
     et_periodCountCalendarDays := None; et_price := 0;
     et_currency := "usd"; et_disableGuests := false;
     et_userId := Some 7%Z; et_users := [] |}.

(** An event type that names no owner. *)
Definition eventType31 : EventType :=
  {| et_id := 31; et_title := "Team call"; et_slug := "team";
     et_description := None; et_length := 15; et_locations := JS.JNull;
     et_customInputs := []; et_periodType := "UNLIMITED";
     et_periodDays := None; et_periodStartDate := None;
     et_periodEndDate := None; et_metadata := JS.JNull;
     et_periodCountCalendarDays := None; et_price := 0;
     et_currency := "usd"; et_disableGuests := false;
     et_userId := None; et_users := [] |}.

Definition host (id : Z) (username : string) : User :=
  {| user_id := id; user_username := Some username; user_name := None;
     user_email := "host@example.com"; user_bio := None;
     user_avatar := None; user_theme := None;
     user_brandColor := "#292929"; user_darkBrandColor := "#fafafa";
     user_allowDynamicBooking := Some true |}.

Definition link_of (userId : option Z) (eventType : option EventType)
           (expired : bool) : DisposableLink :=
  {| dl_users := []; dl_userId := userId; dl_eventType := eventType;
     dl_availability := []; dl_timeZone := None; dl_expired := expired |}.

Definition booking1 : Booking :=
  {| bk_description := Some "First meeting";
     bk_attendees := [ {| att_email := "guest@example.com"; att_name := "Guest" |} ] |}.

(** Host 7 holds two web3 credentials, the first without the flag;
    host 8 holds one, with the flag set. *)
Definition credentials7 : list Credential :=
  [ {| cred_id := 10; cred_type := "metamask_web3"; cred_key := JS.JObject [] |};
    {| cred_id := 11; cred_type := "rainbow_web3";
       cred_key := JS.JObject [("isWeb3Active", JS.JBool true)] |} ].

Definition credentials8 : list Credential :=
  [ {| cred_id := 20; cred_type := "zoom_video"; cred_key := JS.JNull |};
    {| cred_id := 21; cred_type := "acme_web3";
       cred_key := JS.JObject [("isWeb3Active", JS.JBool true)] |} ].

Definition prisma : Prisma :=
  {| db_disposableLink_findUnique := fun link _ =>
       if link =? "abc" then Some (link_of None (Some eventType30) false)
       else if link =? "web3" then Some (link_of (Some 8%Z) (Some eventType30) false)
       else if link =? "old" then Some (link_of (Some 7%Z) (Some eventType30) true)
       else if link =? "orphan" then Some (link_of None None false)
       else if link =? "nouser" then Some (link_of (Some 0%Z) (Some eventType31) false)
       else None;
     db_user_findMany := fun id =>
       if (id =? 7)%Z then [host 7 "ada"]
       else if (id =? 8)%Z then [host 8 "bob"]
       else [];
     db_credential_findMany := fun userIds =>
       if existsb (Z.eqb 7) userIds then credentials7
       else if existsb (Z.eqb 8) userIds then credentials8
       else [];
     db_booking_findFirst := fun uid =>
       if uid =? "resched-1" then Some booking1 else None |}.

Definition context (link : string) (rescheduleUid : QueryValue) : Context :=
  {| query_link := QOne link; query_slug := QOne "intro";
     query_rescheduleUid := rescheduleUid; locale := None |}.

Definition ssrInit (_ : Context) : Ssr := {| dehydrate := JS.JObject [] |}.
Definition getTranslation (_ _ : string) : string -> string := fun key => key.
Definition getLocationLabels (t : string -> string) : list (string * string) :=
  [ ("integrations:daily", t "cal_provide_video_meeting_url") ].
Definition Date_toString (_ : Z) : string := "Fri Apr 15 2022".

(** The page run against the sample database, from an empty log. *)
Definition load (link : string) (rescheduleUid : QueryValue)
  : JS.Completion Result * list Fetch :=
  getServerSideProps ssrInit getTranslation getLocationLabels Date_toString
                     prisma (context link rescheduleUid) [].

End Sample.


(* ================================================================== *)
(** ** The catalog map as AppUtils.ts assembles it *)
(* ================================================================== *)

Module CatalogMap.

(** ToString of a non-negative integer: its decimal numeral. *)
Definition index_key (i : nat) : string :=
  NilEmpty.string_of_uint (N.to_uint (N.of_nat i)).

(** A property key is an array index when it is the canonical numeral of
    an integer below 2^32 - 1; such keys are enumerated first, in
    ascending order. *)
Definition array_index (k : string) : option N :=
  match NilEmpty.uint_of_string k with
  | Some d =>
      let n := N.of_uint d in
      if (NilEmpty.string_of_uint (N.to_uint n) =? k) && (n <? 2 ^ 32 - 1)%N
      then Some n
      else None
  | None => None
  end.

Section Objects.

Context {A : Type}.

Definition has (k : string) (o : list (string * A)) : bool :=
  match JS.own k o with
  | Some _ => true
  | None => false
  end.

(** Assigning to an existing property keeps its place in the order. *)
Fixpoint overwrite (k : string) (v : A) (o : list (string * A))
  : list (string * A) :=
  match o with
  | [] => []
  | (k', v') :: rest =>
      if k' =? k then (k', v) :: rest else (k', v') :: overwrite k v rest
  end.

(** A new array-index property takes its place among the index keys. *)
Fixpoint insert_index (n : N) (k : string) (v : A) (o : list (string * A))
  : list (string * A) :=
  match o with
  | [] => [(k, v)]
  | (k', v') :: rest =>
      match array_index k' with
      | Some m =>
          if (m <? n)%N then (k', v') :: insert_index n k v rest
          else (k, v) :: o
      | None => (k, v) :: o
      end
  end.

(** [CreateDataProperty(o, k, v)], with the enumeration order that
    results: a new string key goes last. *)
Definition defineProperty (k : string) (v : A) (o : list (string * A))
  : list (string * A) :=
  if has k o then overwrite k v o
  else
    match array_index k with
    | Some n => insert_index n k v o
    | None => (o ++ [(k, v)])%list
    end.

(** [{ ...target, ...source }]: the own properties of [source] are
    defined on the object under construction, in their order. *)
Definition spread (target source : list (string * A)) : list (string * A) :=
  fold_left (fun o kv => defineProperty (fst kv) (snd kv) o) source target.

(** The own enumerable properties of an array: its elements under their
    indices. *)
Definition array_entries (xs : list A) : list (string * A) :=
  combine (map index_key (seq 0 (List.length xs))) xs.

End Objects.

(** [ALL_APPS_MAP], from the metadata of the app store's apps (the array
    [Object.values(appStore).map((app) => app.metadata)]) and the three
    configuration objects, spread in this order into one literal. *)
Definition ALL_APPS_MAP (appStoreMetadata : list AppUtils.App)
           (CalendarApps ConferencingApps PaymentApps : list (string * AppUtils.App))
  : list (string * AppUtils.App) :=
  spread
    (spread
       (spread (spread [] (array_entries appStoreMetadata)) CalendarApps)
       ConferencingApps)
    PaymentApps.

End CatalogMap.

(** A key set without repetition, as the properties of an object have. *)
Definition object_like {A : Type} (o : list (string * A)) : Prop :=
  NoDup (map fst o).

Module Sample2.

Import AppUtils Book.

Definition appStoreMetadata : list App :=
  [ Sample.zoom_video; Sample.stripe_payment ].

(** An older entry for Daily, replaced by the conferencing configuration. *)
Definition daily_legacy : App :=
  {| app_type := "daily_video"; app_name := "Daily";
     app_installed := Some false; app_rest := [] |}.

Definition CalendarApps : list (string * App) :=
  [ ("google_calendar", Sample.google_calendar); ("daily_video", daily_legacy) ].

Definition ConferencingApps : list (string * App) :=
  [ ("daily_video", Sample.daily_video) ].

Definition PaymentApps : list (string * App) :=
  [ ("stripe_payment", Sample.stripe_payment) ].

Definition catalog : list (string * App) :=
  CatalogMap.ALL_APPS_MAP appStoreMetadata CalendarApps ConferencingApps PaymentApps.

(** The sample database with two more links: "ghost" names an owner
    without a user row, "bare" names owner 7 and has no event type. *)
Definition prisma : Prisma :=
  {| db_disposableLink_findUnique := fun link slug =>
       if link =? "ghost" then Some (Sample.link_of (Some 9%Z) (Some Sample.eventType30) false)
       else if link =? "bare" then Some (Sample.link_of (Some 7%Z) None false)
       else db_disposableLink_findUnique Sample.prisma link slug;
     db_user_findMany := db_user_findMany Sample.prisma;
     db_credential_findMany := db_credential_findMany Sample.prisma;
     db_booking_findFirst := db_booking_findFirst Sample.prisma |}.

Definition load (context : Context) : JS.Completion Result * list Fetch :=
  getServerSideProps Sample.ssrInit Sample.getTranslation Sample.getLocationLabels
                     Sample.Date_toString prisma context [].

End Sample2.

(* ================================================================== *)
(** ** Strings: the library functions meet their descriptions *)
(* ================================================================== *)

Lemma prefix_spec (p s : string) :
  prefix p s = true <-> exists b, s = p ++ b.
Proof.
  revert s; induction p as [|c p IH]; intros s.
  - split; [intros _; exists s; reflexivity | destruct s; reflexivity].
  - destruct s as [|d s]; simpl.
    + split; [discriminate | intros [b Hb]; discriminate].
    + destruct (ascii_dec c d) as [->|Hne].
      * rewrite IH. split; intros [b Hb]; exists b.
        -- now rewrite Hb.
        -- now injection Hb.
      * split; [discriminate|].
        intros [b Hb]. injection Hb as Hd _. congruence.
Qed.

Lemma includes_spec (s p : string) :
  JS.includes s p = true <-> Contains p s.
Proof.
  induction s as [|c s IH].
  - change (JS.includes EmptyString p) with (prefix p EmptyString || false).
    rewrite orb_false_r, prefix_spec. split.
    + intros [b Hb]. exists EmptyString, b. exact Hb.
    + intros (a & b & Hab). destruct a; [|discriminate].
      exists b. exact Hab.
  - change (JS.includes (String c s) p)
      with (prefix p (String c s) || JS.includes s p).
    rewrite orb_true_iff, prefix_spec, IH. split.
    + intros [[b Hb] | (a & b & Hab)].
      * exists EmptyString, b. exact Hb.
      * exists (String c a), b. simpl. now rewrite Hab.
    + intros (a & b & Hab). destruct a as [|d a]; simpl in Hab.
      * left. exists b. exact Hab.
      * right. injection Hab as _ Hs. exists a, b. exact Hs.
Qed.

Lemma substring_whole (p : string) : substring 0 (String.length p) p = p.
Proof. induction p as [|c p IH]; simpl; [reflexivity | now rewrite IH]. Qed.

Lemma substring_after (a p : string) :
  substring (String.length a) (String.length p) (a ++ p) = p.
Proof. induction a as [|c a IH]; simpl; [apply substring_whole | exact IH]. Qed.

Lemma length_app (a p : string) :
  String.length (a ++ p) = (String.length a + String.length p)%nat.
Proof. induction a as [|c a IH]; simpl; [reflexivity | now rewrite IH]. Qed.

Lemma substring_split (s : string) (n : nat) :
  (n <= String.length s)%nat ->
  s = substring 0 n s ++ substring n (String.length s - n) s.
Proof.
  revert n; induction s as [|c s IH]; intros n Hn; simpl in Hn.
  - assert (n = 0%nat) as -> by lia. reflexivity.
  - destruct n as [|n].
    + simpl. now rewrite substring_whole.
    + simpl. rewrite <- IH by lia. reflexivity.
Qed.

Lemma endsWith_spec (s p : string) :
  JS.endsWith s p = true <-> Suffix p s.
Proof.
  unfold JS.endsWith, Suffix. rewrite andb_true_iff, Nat.leb_le, String.eqb_eq.
  split.
  - intros [Hle Hsub].
    exists (substring 0 (String.length s - String.length p) s).
    pose proof (substring_split s (String.length s - String.length p)) as Hs.
    replace (String.length s - (String.length s - String.length p))%nat
      with (String.length p) in Hs by lia.
    rewrite Hsub in Hs. apply Hs. lia.
  - intros [a ->]. rewrite length_app. split; [lia|].
    replace (String.length a + String.length p - String.length p)%nat
      with (String.length a) by lia.
    apply substring_after.
Qed.

Lemma endsWith_false (s p : string) :
  JS.endsWith s p = false <-> ~ Suffix p s.
Proof.
  rewrite <- endsWith_spec. destruct (JS.endsWith s p); split; congruence.
Qed.

Lemma includes_false (s p : string) :
  JS.includes s p = false <-> ~ Contains p s.
Proof.
  rewrite <- includes_spec. destruct (JS.includes s p); split; congruence.
Qed.

(* ================================================================== *)
(** ** Lists and object lookups *)
(* ================================================================== *)

Lemma filter_kept_in_order {A : Type} (f : A -> bool) (P : A -> Prop) (l : list A) :
  (forall x, f x = true <-> P x) -> kept_in_order P l (filter f l).
Proof.
  intros Hf. induction l as [|x l IH]; simpl.
  - constructor.
  - destruct (f x) eqn:E.
    + apply kept_take; [now apply Hf | exact IH].
    + apply kept_drop; [|exact IH].
      intros HP. apply Hf in HP. congruence.
Qed.

Lemma kept_in_order_unique {A : Type} (P : A -> Prop) (l k1 k2 : list A) :
  kept_in_order P l k1 -> kept_in_order P l k2 -> k1 = k2.
Proof.
  intros H1; revert k2; induction H1; intros k2 H2; inversion H2; subst;
    try reflexivity; try contradiction.
  - f_equal. now apply IHkept_in_order.
  - now apply IHkept_in_order.
Qed.

Lemma summary_of_pick (l : list Credential) :
  Forall2 summary_of l (map AppUtils.pick_id_type l).
Proof.
  induction l as [|c l IH]; simpl; constructor; [split; reflexivity | exact IH].
Qed.

Lemma own_In {A : Type} (k : string) (props : list (string * A)) (a : A) :
  JS.own k props = Some a -> In (k, a) props.
Proof.
  induction props as [|[k' v] rest IH]; simpl; [discriminate|].
  destruct (k' =? k) eqn:E.
  - apply String.eqb_eq in E. intros [= ->]. left. now subst.
  - intros H. right. now apply IH.
Qed.

Lemma own_None {A : Type} (k : string) (props : list (string * A)) :
  JS.own k props = None <-> ~ In k (map fst props).
Proof.
  induction props as [|[k' v] rest IH]; simpl.
  - split; [intros _ [] | reflexivity].
  - destruct (k' =? k) eqn:E.
    + apply String.eqb_eq in E. split; [discriminate|]. intros H. exfalso. auto.
    + apply String.eqb_neq in E. rewrite IH. split.
      * intros H [H1|H1]; auto.
      * intros H H1. auto.
Qed.

Lemma lookup_own {A : Type} (props : list (string * A)) (k : string) (a : A) :
  JS.own k props = Some a -> JS.lookup props k = JS.OwnProperty a.
Proof. unfold JS.lookup. now intros ->. Qed.

Lemma lookup_missing {A : Type} (props : list (string * A)) (k : string) :
  JS.own k props = None -> ~ inherited k -> JS.lookup props k = JS.Undefined.
Proof.
  unfold JS.lookup, inherited. intros -> Hk.
  destruct (JS.own k JS.Object_prototype_functions) eqn:E.
  - exfalso. apply Hk. left.
    apply own_In in E. change k with (fst (k, s)). now apply in_map.
  - destruct (k =? "__proto__") eqn:E2; [|reflexivity].
    apply String.eqb_eq in E2. exfalso. auto.
Qed.

(* ================================================================== *)
(** ** Properties of the app/credential resolver *)
(* ================================================================== *)

Section Resolver.

Import AppUtils.

(** C3. For every catalog and every list of user credentials, [getApps]
    returns one entry per catalog app, in catalog order; the [credentials]
    of each entry are the [{id, type}] summaries of exactly the input
    credentials whose type equals the app's type, in input order. *)
Theorem getApps_one_entry_per_app
        (ALL_APPS_MAP : list (string * App)) (userCredentials : list Credential) :
  map ame_app (getApps ALL_APPS_MAP userCredentials) = ALL_APPS ALL_APPS_MAP /\
  List.length (getApps ALL_APPS_MAP userCredentials)
    = List.length (ALL_APPS ALL_APPS_MAP) /\
  Forall
    (fun out =>
       exists kept,
         kept_in_order (fun c => cred_type c = app_type (ame_app out))
                       userCredentials kept /\
         Forall2 summary_of kept (credentials out))
    (getApps ALL_APPS_MAP userCredentials).
Proof.
  unfold getApps. repeat split.
  - rewrite map_map. simpl. apply map_id.
  - apply length_map.
  - apply Forall_forall. intros out Hin.
    apply in_map_iff in Hin. destruct Hin as (app & <- & _). simpl.
    eexists. split.
    + apply filter_kept_in_order. intros c. apply String.eqb_eq.
    + apply summary_of_pick.
Qed.

(** C4. [hasIntegration apps type] is true exactly when some app of
    [apps] has that type, is marked installed, and either the type is one
    of "daily_video", "jitsi_video", "huddle01_video" or the app's
    credentials list is non-empty. *)
Theorem hasIntegration_iff (apps : AppMeta) (type : string) :
  hasIntegration apps type = true <->
  exists app,
    In app apps /\
    app_type (ame_app app) = type /\
    app_installed (ame_app app) = Some true /\
    (type = "daily_video" \/ type = "jitsi_video" \/ type = "huddle01_video" \/
     credentials app <> []).
Proof.
  unfold hasIntegration.
  set (ok := fun app : AppMetaEntry => _).
  assert (Hok : forall app, ok app = true <->
            app_type (ame_app app) = type /\
            app_installed (ame_app app) = Some true /\
            (type = "daily_video" \/ type = "jitsi_video" \/
             type = "huddle01_video" \/ credentials app <> [])).
  { intros app. unfold ok.
    rewrite !andb_true_iff, !orb_true_iff, !String.eqb_eq, Nat.ltb_lt.
    assert (JS.truthyFlag (app_installed (ame_app app)) = true <->
            app_installed (ame_app app) = Some true) as ->.
    { destruct (app_installed (ame_app app)) as [[|]|]; simpl;
        split; congruence. }
    assert ((0 < List.length (credentials app))%nat <-> credentials app <> []) as ->.
    { destruct (credentials app); simpl; split; try congruence; lia. }
    tauto. }
  destruct (find ok apps) as [app|] eqn:E.
  - apply find_some in E. destruct E as [Hin Happ].
    split; [intros _ | reflexivity].
    exists app. split; [exact Hin | now apply Hok].
  - split; [discriminate|].
    intros (app & Hin & Happ).
    pose proof (find_none _ _ E app Hin) as Hno.
    apply Hok in Happ. congruence.
Qed.

(** C5. For a name of the catalog, [getAppType] answers "Calendar" when
    the entry's type ends with "_calendar", otherwise "Payment" when it ends
    with "_payment", otherwise "Unknown"; so "google_calendar" is a
    Calendar, "stripe_payment" a Payment and "zoom_video" Unknown. *)
Theorem getAppType_category
        (ALL_APPS_MAP : list (string * App)) (name : string) (app : App) :
  JS.own name ALL_APPS_MAP = Some app ->
  (Suffix "_calendar" (app_type app) ->
   getAppType ALL_APPS_MAP name = JS.Return "Calendar") /\
  (~ Suffix "_calendar" (app_type app) -> Suffix "_payment" (app_type app) ->
   getAppType ALL_APPS_MAP name = JS.Return "Payment") /\
  (~ Suffix "_calendar" (app_type app) -> ~ Suffix "_payment" (app_type app) ->
   getAppType ALL_APPS_MAP name = JS.Return "Unknown") /\
  (app_type app = "google_calendar" ->
   getAppType ALL_APPS_MAP name = JS.Return "Calendar") /\
  (app_type app = "stripe_payment" ->
   getAppType ALL_APPS_MAP name = JS.Return "Payment") /\
  (app_type app = "zoom_video" ->
   getAppType ALL_APPS_MAP name = JS.Return "Unknown").
Proof.
  intros Hown. unfold getAppType. rewrite (lookup_own _ _ _ Hown).
  repeat split.
  - intros Hc. apply endsWith_spec in Hc. now rewrite Hc.
  - intros Hc Hp. apply endsWith_false in Hc. apply endsWith_spec in Hp.
    now rewrite Hc, Hp.
  - intros Hc Hp. apply endsWith_false in Hc. apply endsWith_false in Hp.
    now rewrite Hc, Hp.
  - intros ->. reflexivity.
  - intros ->. reflexivity.
  - intros ->. reflexivity.
Qed.

Lemma getAppType_category_witness :
  getAppType Sample.catalog "google_calendar" = JS.Return "Calendar" /\
  getAppType Sample.catalog "stripe_payment" = JS.Return "Payment" /\
  getAppType Sample.catalog "zoom_video" = JS.Return "Unknown".
Proof.
  split; [|split].
  - apply (getAppType_category Sample.catalog "google_calendar" Sample.google_calendar);
      reflexivity.
  - apply (getAppType_category Sample.catalog "stripe_payment" Sample.stripe_payment);
      reflexivity.
  - apply (getAppType_category Sample.catalog "zoom_video" Sample.zoom_video);
      reflexivity.
Defined.

(** C8. In every entry that [getApps] returns, the singular [credential]
    is the first element of [credentials] when that list is non-empty, and
    null when it is empty. *)
Theorem getApps_credential_is_first
        (ALL_APPS_MAP : list (string * App)) (userCredentials : list Credential)
        (out : AppMetaEntry) :
  In out (getApps ALL_APPS_MAP userCredentials) ->
  match credentials out with
  | [] => credential out = None
  | first :: _ => credential out = Some first
  end.
Proof.
  unfold getApps. intros Hin.
  apply in_map_iff in Hin. destruct Hin as (app & <- & _). simpl.
  destruct (map pick_id_type _); reflexivity.
Qed.

Lemma getApps_credential_is_first_witness :
  In (mkAppMetaEntry Sample.zoom_video
        (Some (mkCredentialData 1 "zoom_video"))
        [mkCredentialData 1 "zoom_video"; mkCredentialData 3 "zoom_video"])
     (getApps Sample.catalog Sample.userCredentials) /\
  Some (mkCredentialData 1 "zoom_video") = Some (mkCredentialData 1 "zoom_video").
Proof.
  assert (Hin : In (mkAppMetaEntry Sample.zoom_video
                      (Some (mkCredentialData 1 "zoom_video"))
                      [mkCredentialData 1 "zoom_video"; mkCredentialData 3 "zoom_video"])
                   (getApps Sample.catalog Sample.userCredentials)).
  { simpl. right. right. left. reflexivity. }
  split; [exact Hin|].
  exact (getApps_credential_is_first Sample.catalog Sample.userCredentials _ Hin).
Defined.

End Resolver.

(** C9. A name that is neither a key of the catalog map nor the name of a
    property inherited from [Object.prototype] makes [getAppName] raise an
    error; a name that is a key yields that entry's display name. *)
Theorem getAppName_key_or_error
        (ALL_APPS_MAP : list (string * AppUtils.App)) (name : string) :
  (forall app, JS.own name ALL_APPS_MAP = Some app ->
     AppUtils.getAppName ALL_APPS_MAP name = JS.Return (JS.Str (AppUtils.app_name app))) /\
  (~ In name (map fst ALL_APPS_MAP) -> ~ inherited name ->
     AppUtils.getAppName ALL_APPS_MAP name = JS.Throw JS.TypeError).
Proof.
  unfold AppUtils.getAppName. split.
  - intros app Hown. now rewrite (lookup_own _ _ _ Hown).
  - intros Hkey Hinh. apply own_None in Hkey.
    now rewrite (lookup_missing _ _ Hkey Hinh).
Qed.

Lemma getAppName_key_or_error_witness :
  AppUtils.getAppName Sample.catalog "zoom_video" = JS.Return (JS.Str "Zoom Video") /\
  AppUtils.getAppName Sample.catalog "hubspot_crm" = JS.Throw JS.TypeError.
Proof.
  split.
  - apply (proj1 (getAppName_key_or_error Sample.catalog "zoom_video")
                 Sample.zoom_video).
    reflexivity.
  - apply (proj2 (getAppName_key_or_error Sample.catalog "hubspot_crm")).
    + apply own_None. reflexivity.
    + unfold inherited. simpl. intros [H|H]; [|discriminate H].
      repeat (destruct H as [H|H]; [discriminate H|]). exact H.
Defined.

(** The names every object literal inherits are answered from
    [Object.prototype]: no error is raised for them. *)
Lemma getAppName_inherited
      (ALL_APPS_MAP : list (string * AppUtils.App)) (name : string) :
  inherited name -> exists v, AppUtils.getAppName ALL_APPS_MAP name = JS.Return v.
Proof.
  unfold AppUtils.getAppName, JS.lookup, inherited. intros Hinh.
  destruct (JS.own name ALL_APPS_MAP); [eexists; reflexivity|].
  destruct (JS.own name JS.Object_prototype_functions) eqn:E;
    [eexists; reflexivity|].
  destruct Hinh as [Hin | ->]; [|eexists; reflexivity].
  apply own_None in E. contradiction.
Qed.

(** "constructor" is no key of the sample catalog, and [getAppName] returns
    the name of the inherited [Object] function for it. *)
Lemma getAppName_constructor_returns :
  ~ In "constructor" (map fst Sample.catalog) /\
  AppUtils.getAppName Sample.catalog "constructor" = JS.Return (JS.Str "Object").
Proof.
  split; [|reflexivity].
  apply own_None. reflexivity.
Qed.

(* ================================================================== *)
(** ** Properties of the booking page loader *)
(* ================================================================== *)

Lemma find_web3_first (creds : list Credential) (c : Credential) :
  first_web3 creds c -> Book.find_web3 creds = Some c.
Proof.
  intros (pre & post & -> & Hc & Hpre). unfold Book.find_web3.
  induction pre as [|x pre IH]; simpl.
  - apply includes_spec in Hc. now rewrite Hc.
  - assert (Hx : JS.includes (cred_type x) "_web3" = false).
    { apply includes_false. apply Hpre. now left. }
    rewrite Hx. apply IH. intros y Hy. apply Hpre. now right.
Qed.

Lemma find_web3_none (creds : list Credential) :
  (forall c, In c creds -> ~ Contains "_web3" (cred_type c)) ->
  Book.find_web3 creds = None.
Proof.
  intros Hall. unfold Book.find_web3.
  induction creds as [|x creds IH]; simpl; [reflexivity|].
  assert (Hx : JS.includes (cred_type x) "_web3" = false).
  { apply includes_false. apply Hall. now left. }
  rewrite Hx. apply IH. intros y Hy. apply Hall. now right.
Qed.

Section LoaderFacts.

Import JS Book.

Variable ssrInit : Context -> Ssr.
Variable getTranslation : string -> string -> (string -> string).
Variable getLocationLabels : (string -> string) -> list (string * string).
Variable Date_toString : Z -> string.
Variable prisma : Prisma.

Local Abbreviation run :=
  (getServerSideProps ssrInit getTranslation getLocationLabels Date_toString prisma).

(** Every run that returns props went through the three queries and found
    a live link, an owner and an event type. *)
Lemma getServerSideProps_props_inv (context : Context) (log log' : list Fetch)
      (p : PageProps) :
  run context log = (Return (Props p), log') ->
  exists link d e uid user rest,
    query_link context = QOne link /\
    db_disposableLink_findUnique prisma link (query_slug context) = Some d /\
    dl_expired d = false /\
    dl_eventType d = Some e /\
    orNumber (dl_userId d) (et_userId e) = Some uid /\
    uid <> 0%Z /\
    db_user_findMany prisma uid = user :: rest /\
    log' = (log ++ [FetchDisposableLink link (query_slug context);
                    FetchUsers uid;
                    FetchCredentials (map user_id (user :: rest))])%list /\
    booking p = None /\
    profile p = profile_of user /\
    eventType p =
      eventTypeObject_of Date_toString e
        (db_credential_findMany prisma (map user_id (user :: rest))).
Proof.
  unfold getServerSideProps, bind, lift, ret, disposableLink_findUnique,
    user_findMany, credential_findMany, issue, resolveUserId, asStringOrThrow,
    orNumber.
  intros H.
  destruct (query_link context) as [|link|] eqn:Hlink; try discriminate.
  destruct (db_disposableLink_findUnique prisma link (query_slug context))
    as [d|] eqn:Hd; simpl in H; [|discriminate].
  destruct (dl_expired d) eqn:Hexp; [discriminate|].
  unfold truthyNumber in *.
  destruct (dl_eventType d) as [e|] eqn:He;
    destruct (dl_userId d) as [uid1|] eqn:Hid;
    try destruct (uid1 =? 0)%Z eqn:Hz1; simpl in H; try discriminate;
    try (destruct (et_userId e) as [uid2|] eqn:Hid2;
         try destruct (uid2 =? 0)%Z eqn:Hz2; simpl in H; try discriminate);
    try rewrite Hz1 in H; try rewrite Hz2 in H; simpl in H; try discriminate;
    try (destruct (db_user_findMany prisma uid1) as [|user rest] eqn:Hu;
         [discriminate|]);
    try (destruct (db_user_findMany prisma uid2) as [|user rest] eqn:Hu;
         [discriminate|]);
    try discriminate;
    injection H as Hp Hlog; subst p; rewrite <- !app_assoc in Hlog; simpl in Hlog;
    subst log'; exists link, d, e;
    first
      [ solve [ exists uid1, user, rest; rewrite Hid, ?Hz1; simpl;
                repeat split; auto; now apply Z.eqb_neq ]
      | solve [ exists uid2, user, rest; rewrite Hid, ?Hid2, ?Hz1; simpl;
                repeat split; auto; now apply Z.eqb_neq ] ].
Qed.

(** Conversely, a live link with an owner, a host row and an event type
    always yields props, after exactly the three queries. *)
Lemma getServerSideProps_success (context : Context) (log : list Fetch)
      (link : string) (d : DisposableLink) (e : EventType) (uid : Z)
      (user : User) (rest : list User) :
  query_link context = QOne link ->
  db_disposableLink_findUnique prisma link (query_slug context) = Some d ->
  dl_expired d = false ->
  dl_eventType d = Some e ->
  orNumber (dl_userId d) (et_userId e) = Some uid ->
  uid <> 0%Z ->
  db_user_findMany prisma uid = user :: rest ->
  exists p,
    run context log =
      (Return (Props p),
       (log ++ [FetchDisposableLink link (query_slug context);
                FetchUsers uid;
                FetchCredentials (map user_id (user :: rest))])%list) /\
    booking p = None /\
    eventType p =
      eventTypeObject_of Date_toString e
        (db_credential_findMany prisma (map user_id (user :: rest))).
Proof.
  intros Hlink Hd Hexp He Hor Hne Hu.
  unfold getServerSideProps, bind, lift, ret, disposableLink_findUnique,
    user_findMany, credential_findMany, issue, resolveUserId, asStringOrThrow.
  rewrite Hlink, Hd. simpl. rewrite Hexp, He.
  unfold orNumber in Hor.
  assert (Ht : truthyNumber (Some uid) = true).
  { simpl. apply Z.eqb_neq in Hne. now rewrite Hne. }
  destruct (truthyNumber (dl_userId d)) eqn:Hown.
  - rewrite Hor, Ht. simpl. rewrite Hu. eexists. split.
    + rewrite <- !app_assoc. reflexivity.
    + split; reflexivity.
  - rewrite Hor, Ht. simpl. rewrite Hu. eexists. split.
    + rewrite <- !app_assoc. reflexivity.
    + split; reflexivity.
Qed.

(** A live link whose record and event type both name no owner is
    answered with not-found, after the one lookup. *)
Lemma getServerSideProps_no_owner (context : Context) (log : list Fetch)
      (link : string) (d : DisposableLink) (e : EventType) :
  query_link context = QOne link ->
  db_disposableLink_findUnique prisma link (query_slug context) = Some d ->
  dl_expired d = false ->
  dl_eventType d = Some e ->
  truthyNumber (dl_userId d) = false ->
  truthyNumber (et_userId e) = false ->
  run context log =
    (Return NotFound,
     (log ++ [FetchDisposableLink link (query_slug context)])%list).
Proof.
  intros Hlink Hd Hexp He Hown Het.
  unfold getServerSideProps, bind, lift, ret, disposableLink_findUnique,
    issue, resolveUserId, asStringOrThrow.
  rewrite Hlink, Hd. simpl. rewrite Hexp, Hown, He, Het. reflexivity.
Qed.

(** A live link that names no owner and has no event type makes the read
    of [eventType.userId] raise. *)
Lemma getServerSideProps_no_eventType_raises (context : Context)
      (log : list Fetch) (link : string) (d : DisposableLink) :
  query_link context = QOne link ->
  db_disposableLink_findUnique prisma link (query_slug context) = Some d ->
  dl_expired d = false ->
  dl_eventType d = None ->
  truthyNumber (dl_userId d) = false ->
  run context log =
    (Throw TypeError,
     (log ++ [FetchDisposableLink link (query_slug context)])%list).
Proof.
  intros Hlink Hd Hexp He Hown.
  unfold getServerSideProps, bind, lift, ret, disposableLink_findUnique,
    issue, resolveUserId, asStringOrThrow.
  rewrite Hlink, Hd. simpl. rewrite Hexp, Hown, He. reflexivity.
Qed.

(** C6. When the (link, slug) lookup finds no record, or finds one whose
    [expired] flag is true, the loader returns [{notFound: true}] and the
    lookup is the only query it issues: no user, credential or booking
    fetch follows. *)
Theorem getServerSideProps_absent_or_expired (context : Context)
        (log : list Fetch) (link : string) :
  query_link context = QOne link ->
  (db_disposableLink_findUnique prisma link (query_slug context) = None \/
   exists d,
     db_disposableLink_findUnique prisma link (query_slug context) = Some d /\
     dl_expired d = true) ->
  run context log =
    (Return NotFound,
     (log ++ [FetchDisposableLink link (query_slug context)])%list).
Proof.
  intros Hlink Hrec.
  unfold getServerSideProps, bind, lift, ret, disposableLink_findUnique,
    issue, resolveUserId, asStringOrThrow.
  rewrite Hlink.
  destruct Hrec as [Hd | (d & Hd & Hexp)]; rewrite Hd; simpl.
  - reflexivity.
  - now rewrite Hexp.
Qed.

(** The web3 flag of any returned props is computed from the credentials
    fetched for the host users, and from their first web3 entry alone. *)
Lemma getServerSideProps_web3_flag (context : Context) (log log' : list Fetch)
      (p : PageProps) :
  run context log = (Return (Props p), log') ->
  exists link uid userIds,
    log' = (log ++ [FetchDisposableLink link (query_slug context);
                    FetchUsers uid;
                    FetchCredentials userIds])%list /\
    eto_isWeb3Active (eventType p) =
      isWeb3Active_of (find_web3 (db_credential_findMany prisma userIds)).
Proof.
  intros H. apply getServerSideProps_props_inv in H.
  destruct H as (link & d & e & uid & user & rest & _ & _ & _ & _ & _ & _ & _
                 & Hlog & _ & _ & Het).
  exists link, uid, (map user_id (user :: rest)). split; [exact Hlog|].
  rewrite Het. reflexivity.
Qed.

(** C7. In returned props, [eventType.isWeb3Active] is true when the first
    fetched credential whose type contains "_web3" has a key payload with
    [isWeb3Active: true]; it is false when no fetched credential's type
    contains "_web3", or when that first credential's key payload is
    absent. *)
Theorem getServerSideProps_isWeb3Active (context : Context)
        (log log' : list Fetch) (p : PageProps) :
  run context log = (Return (Props p), log') ->
  exists link uid userIds,
    log' = (log ++ [FetchDisposableLink link (query_slug context);
                    FetchUsers uid;
                    FetchCredentials userIds])%list /\
    (forall c,
        first_web3 (db_credential_findMany prisma userIds) c ->
        member (cred_key c) "isWeb3Active" = Some (JBool true) ->
        eto_isWeb3Active (eventType p) = JBool true) /\
    ((forall c, In c (db_credential_findMany prisma userIds) ->
                ~ Contains "_web3" (cred_type c)) ->
     eto_isWeb3Active (eventType p) = JBool false) /\
    (forall c,
        first_web3 (db_credential_findMany prisma userIds) c ->
        cred_key c = JNull ->
        eto_isWeb3Active (eventType p) = JBool false).
Proof.
  intros H. apply getServerSideProps_web3_flag in H.
  destruct H as (link & uid & userIds & Hlog & Hflag).
  exists link, uid, userIds. split; [exact Hlog|]. rewrite Hflag.
  split; [|split].
  - intros c Hfirst Hkey. rewrite (find_web3_first _ _ Hfirst).
    unfold isWeb3Active_of. rewrite Hkey.
    destruct (cred_key c); try discriminate. reflexivity.
  - intros Hnone. now rewrite (find_web3_none _ Hnone).
  - intros c Hfirst Hkey. rewrite (find_web3_first _ _ Hfirst).
    unfold isWeb3Active_of. now rewrite Hkey.
Qed.

(** C10. The web3 flag of returned props is derived from one credential
    only, the first fetched one whose type contains "_web3": when its key
    is absent or its [isWeb3Active] is falsy the flag is false, whatever
    the credentials after it carry. *)
Theorem getServerSideProps_isWeb3Active_first_only (context : Context)
        (log log' : list Fetch) (p : PageProps) :
  run context log = (Return (Props p), log') ->
  exists link uid userIds,
    log' = (log ++ [FetchDisposableLink link (query_slug context);
                    FetchUsers uid;
                    FetchCredentials userIds])%list /\
    forall pre c post,
      db_credential_findMany prisma userIds = (pre ++ c :: post)%list ->
      Contains "_web3" (cred_type c) ->
      (forall x, In x pre -> ~ Contains "_web3" (cred_type x)) ->
      eto_isWeb3Active (eventType p) = isWeb3Active_of (Some c) /\
      (truthy (cred_key c) = false \/
       (forall v, member (cred_key c) "isWeb3Active" = Some v -> truthy v = false) ->
       eto_isWeb3Active (eventType p) = JBool false).
Proof.
  intros H. apply getServerSideProps_web3_flag in H.
  destruct H as (link & uid & userIds & Hlog & Hflag).
  exists link, uid, userIds. split; [exact Hlog|].
  intros pre c post Hsplit Hc Hpre. rewrite Hflag.
  assert (Hfirst : first_web3 (db_credential_findMany prisma userIds) c).
  { exists pre, post. auto. }
  rewrite (find_web3_first _ _ Hfirst). split; [reflexivity|].
  unfold isWeb3Active_of. intros [Hkey | Hfalsy].
  - now rewrite Hkey.
  - destruct (truthy (cred_key c)); [|reflexivity].
    destruct (member (cred_key c) "isWeb3Active") as [v|] eqn:Hv; [|reflexivity].
    now rewrite (Hfalsy v eq_refl).
Qed.

(** Returned props never carry a booking, and the queries issued on the
    way include no booking lookup. *)
Lemma getServerSideProps_booking_null (context : Context)
      (log log' : list Fetch) (p : PageProps) :
  run context log = (Return (Props p), log') ->
  booking p = None /\
  exists issued,
    log' = (log ++ issued)%list /\ forall uid, ~ In (FetchBooking uid) issued.
Proof.
  intros H. apply getServerSideProps_props_inv in H.
  destruct H as (link & d & e & uid & user & rest & _ & _ & _ & _ & _ & _ & _
                 & Hlog & Hb & _).
  split; [exact Hb|]. eexists. split; [exact Hlog|].
  intros u [Hin | [Hin | [Hin | []]]]; discriminate.
Qed.

End LoaderFacts.

(* ================================================================== *)
(** ** The loader on the sample database *)
(* ================================================================== *)

Section LoaderRuns.

Import JS Book.

Lemma getServerSideProps_absent_or_expired_witness :
  Sample.load "missing" QAbsent =
    (Return NotFound, [FetchDisposableLink "missing" (QOne "intro")]) /\
  Sample.load "old" (QOne "resched-1") =
    (Return NotFound, [FetchDisposableLink "old" (QOne "intro")]).
Proof.
  split.
  - apply (getServerSideProps_absent_or_expired
             Sample.ssrInit Sample.getTranslation Sample.getLocationLabels
             Sample.Date_toString Sample.prisma
             (Sample.context "missing" QAbsent) [] "missing").
    + reflexivity.
    + left. reflexivity.
  - apply (getServerSideProps_absent_or_expired
             Sample.ssrInit Sample.getTranslation Sample.getLocationLabels
             Sample.Date_toString Sample.prisma
             (Sample.context "old" (QOne "resched-1")) [] "old").
    + reflexivity.
    + right. eexists. split; reflexivity.
Defined.

(** C1. The request carries a reschedule identifier that matches an
    existing booking, and [getBooking] would fetch that booking's
    [{description, attendees}]; yet the loader never calls it: the props
    it returns carry [booking: null] and no booking query is issued. *)
Theorem getServerSideProps_reschedule_booking_null :
  getBooking Sample.prisma (Sample.context "abc" (QOne "resched-1")) [] =
    (Return (Some Sample.booking1), [FetchBooking "resched-1"]) /\
  exists p,
    Sample.load "abc" (QOne "resched-1") =
      (Return (Props p),
       [FetchDisposableLink "abc" (QOne "intro"); FetchUsers 7;
        FetchCredentials [7%Z]]) /\
    booking p = None.
Proof.
  split; [reflexivity|].
  eexists. split; [vm_compute; reflexivity | reflexivity].
Qed.

(** C2. The lookup finds a live record with neither a [userId] nor an
    event type; instead of returning [{notFound: true}] the loader raises
    a TypeError on reading [eventType.userId]. *)
Theorem getServerSideProps_orphan_link_raises :
  db_disposableLink_findUnique Sample.prisma "orphan" (QOne "intro") =
    Some (Sample.link_of None None false) /\
  Sample.load "orphan" QAbsent =
    (Throw TypeError, [FetchDisposableLink "orphan" (QOne "intro")]).
Proof.
  split; reflexivity.
Qed.

(** With an event type present, the same record resolves to not-found. *)
Lemma getServerSideProps_no_owner_run :
  Sample.load "nouser" QAbsent =
    (Return NotFound, [FetchDisposableLink "nouser" (QOne "intro")]).
Proof.
  apply (getServerSideProps_no_owner
           Sample.ssrInit Sample.getTranslation Sample.getLocationLabels
           Sample.Date_toString Sample.prisma
           (Sample.context "nouser" QAbsent) [] "nouser"
           (Sample.link_of (Some 0%Z) (Some Sample.eventType31) false)
           Sample.eventType31); reflexivity.
Qed.

Lemma contains_web3 (prefix : string) : Contains "_web3" (prefix ++ "_web3").
Proof. exists prefix, EmptyString. reflexivity. Qed.

(** Host 7's credentials contain a "_web3" credential whose key has
    [isWeb3Active: true], and the flag of the returned props is false:
    an earlier "_web3" credential without the flag is the one consulted. *)
Lemma getServerSideProps_isWeb3Active_later_ignored :
  (exists c,
      In c (db_credential_findMany Sample.prisma [7%Z]) /\
      Contains "_web3" (cred_type c) /\
      member (cred_key c) "isWeb3Active" = Some (JBool true)) /\
  exists p,
    Sample.load "abc" QAbsent =
      (Return (Props p),
       [FetchDisposableLink "abc" (QOne "intro"); FetchUsers 7;
        FetchCredentials [7%Z]]) /\
    eto_isWeb3Active (eventType p) = JBool false.
Proof.
  split.
  - exists (mkCredential 11 "rainbow_web3" (JObject [("isWeb3Active", JBool true)])).
    split; [right; left; reflexivity|].
    split; [apply (contains_web3 "rainbow") | reflexivity].
  - eexists. split; [vm_compute; reflexivity | reflexivity].
Qed.

Lemma getServerSideProps_isWeb3Active_witness :
  exists p log',
    Sample.load "web3" QAbsent = (Return (Props p), log') /\
    eto_isWeb3Active (eventType p) = JBool true.
Proof.
  eexists. eexists. split; [vm_compute; reflexivity|].
  match goal with
  | |- eto_isWeb3Active (eventType ?p) = _ =>
      destruct (getServerSideProps_isWeb3Active
                  Sample.ssrInit Sample.getTranslation Sample.getLocationLabels
                  Sample.Date_toString Sample.prisma
                  (Sample.context "web3" QAbsent) []
                  [FetchDisposableLink "web3" (QOne "intro"); FetchUsers 8;
                   FetchCredentials [8%Z]]
                  p eq_refl)
        as (link & uid & userIds & Hlog & Htrue & _)
  end.
  simpl in Hlog. injection Hlog as _ _ Hids. subst userIds.
  apply (Htrue (mkCredential 21 "acme_web3" (JObject [("isWeb3Active", JBool true)]))).
  - exists [mkCredential 20 "zoom_video" JNull], [].
    split; [reflexivity|]. split; [apply (contains_web3 "acme")|].
    intros x [<- | []]. apply includes_false. reflexivity.
  - reflexivity.
Defined.

Lemma getServerSideProps_isWeb3Active_first_only_witness :
  exists p log',
    Sample.load "abc" QAbsent = (Return (Props p), log') /\
    eto_isWeb3Active (eventType p) = JBool false.
Proof.
  eexists. eexists. split; [vm_compute; reflexivity|].
  match goal with
  | |- eto_isWeb3Active (eventType ?p) = _ =>
      destruct (getServerSideProps_isWeb3Active_first_only
                  Sample.ssrInit Sample.getTranslation Sample.getLocationLabels
                  Sample.Date_toString Sample.prisma
                  (Sample.context "abc" QAbsent) []
                  [FetchDisposableLink "abc" (QOne "intro"); FetchUsers 7;
                   FetchCredentials [7%Z]]
                  p eq_refl)
        as (link & uid & userIds & Hlog & Hfirst)
  end.
  simpl in Hlog. injection Hlog as _ _ Hids. subst userIds.
  apply (Hfirst []
           (mkCredential 10 "metamask_web3" (JObject []))
           [mkCredential 11 "rainbow_web3" (JObject [("isWeb3Active", JBool true)])]).
  - reflexivity.
  - apply (contains_web3 "metamask").
  - intros x [].
  - right. intros v Hv. discriminate Hv.
Defined.

End LoaderRuns.

(* ================================================================== *)
(** ** Further properties of the resolver *)
(* ================================================================== *)

Section ResolverMore.

Import AppUtils.

Lemma pick_filter_type (t : string) (l : list Credential) :
  map pick_id_type (filter (fun c => cred_type c =? t) l) =
  filter (fun cd => cd_type cd =? t) (map pick_id_type l).
Proof.
  induction l as [|c l IH]; simpl; [reflexivity|].
  destruct (cred_type c =? t); simpl; now rewrite IH.
Qed.

Lemma getApps_entry (ALL_APPS_MAP : list (string * App))
      (userCredentials : list Credential) (out : AppMetaEntry) :
  In out (getApps ALL_APPS_MAP userCredentials) ->
  In (ame_app out) (ALL_APPS ALL_APPS_MAP) /\
  credentials out =
    map pick_id_type
        (filter (fun c => cred_type c =? app_type (ame_app out)) userCredentials) /\
  credential out = first_or_null (credentials out).
Proof.
  unfold getApps. intros Hin. apply in_map_iff in Hin.
  destruct Hin as (app & <- & Happ). simpl. auto.
Qed.

(** X1. The result of [getApps] depends on the ids and types of the
    credentials only: two credential lists with the same [{id, type}]
    summaries, whatever their keys, give the same result. *)
Theorem getApps_ignores_key (ALL_APPS_MAP : list (string * App))
        (creds1 creds2 : list Credential) :
  map pick_id_type creds1 = map pick_id_type creds2 ->
  getApps ALL_APPS_MAP creds1 = getApps ALL_APPS_MAP creds2.
Proof.
  intros Hsame. unfold getApps. apply map_ext. intros app.
  rewrite !pick_filter_type, Hsame. reflexivity.
Qed.

Lemma getApps_ignores_key_witness :
  getApps Sample.catalog Sample.userCredentials =
  getApps Sample.catalog
          [ mkCredential 1 "zoom_video" JS.JNull;
            mkCredential 2 "google_calendar" (JS.JString "refreshed");
            mkCredential 3 "zoom_video" (JS.JNumber 5) ].
Proof.
  apply (getApps_ignores_key Sample.catalog). reflexivity.
Defined.

(** X2. In an entry of [getApps], [credential] is null, and [credentials]
    empty, exactly when the user holds no credential of the app's type. *)
Theorem getApps_null_credential_iff (ALL_APPS_MAP : list (string * App))
        (userCredentials : list Credential) (out : AppMetaEntry) :
  In out (getApps ALL_APPS_MAP userCredentials) ->
  (credential out = None <->
   forall c, In c userCredentials -> cred_type c <> app_type (ame_app out)) /\
  (credentials out = [] <-> credential out = None).
Proof.
  intros Hin. apply getApps_entry in Hin. destruct Hin as (_ & Hcs & Hc).
  assert (Hempty : credentials out = [] <->
            forall c, In c userCredentials -> cred_type c <> app_type (ame_app out)).
  { rewrite Hcs. split.
    - intros Hnil c Hc' Hty.
      assert (Hf : In c (filter (fun c => cred_type c =? app_type (ame_app out))
                                userCredentials)).
      { apply filter_In. split; [exact Hc' | now apply String.eqb_eq]. }
      apply (in_map pick_id_type) in Hf. rewrite Hnil in Hf. exact Hf.
    - intros Hall.
      destruct (filter _ userCredentials) as [|c l] eqn:E; [reflexivity|].
      assert (Hf : In c (filter (fun c => cred_type c =? app_type (ame_app out))
                                userCredentials)) by (rewrite E; now left).
      apply filter_In in Hf. destruct Hf as [Hc' Hty].
      apply String.eqb_eq in Hty. exfalso. exact (Hall c Hc' Hty). }
  assert (Hnone : credentials out = [] <-> credential out = None).
  { rewrite Hc. unfold first_or_null.
    destruct (credentials out); simpl; split; congruence. }
  split; [|exact Hnone]. rewrite <- Hnone. exact Hempty.
Qed.

Lemma getApps_null_credential_iff_witness :
  In (mkAppMetaEntry Sample.stripe_payment None [])
     (getApps Sample.catalog Sample.userCredentials) /\
  ((@None CredentialData = None <->
    forall c, In c Sample.userCredentials -> cred_type c <> "stripe_payment") /\
   (@nil CredentialData = [] <-> @None CredentialData = None)).
Proof.
  assert (Hin : In (mkAppMetaEntry Sample.stripe_payment None [])
                   (getApps Sample.catalog Sample.userCredentials)).
  { simpl. right. left. reflexivity. }
  split; [exact Hin|].
  exact (getApps_null_credential_iff Sample.catalog Sample.userCredentials _ Hin).
Defined.

(** X3. A credential of the user is listed under some entry of [getApps]
    exactly when its type is the type of a catalog app; credentials of
    other types are dropped. *)
Theorem getApps_lists_credential_iff (ALL_APPS_MAP : list (string * App))
        (userCredentials : list Credential) (c : Credential) :
  In c userCredentials ->
  ((exists out,
       In out (getApps ALL_APPS_MAP userCredentials) /\
       In (pick_id_type c) (credentials out)) <->
   In (cred_type c) (map app_type (ALL_APPS ALL_APPS_MAP))).
Proof.
  intros Hc. split.
  - intros (out & Hout & Hin). apply getApps_entry in Hout.
    destruct Hout as (Happ & Hcs & _). rewrite Hcs in Hin.
    apply in_map_iff in Hin. destruct Hin as (c' & Hpick & Hf).
    apply filter_In in Hf. destruct Hf as [_ Hty]. apply String.eqb_eq in Hty.
    assert (cred_type c = cred_type c') as ->.
    { change (cd_type (pick_id_type c) = cd_type (pick_id_type c')).
      now rewrite Hpick. }
    rewrite Hty. now apply in_map.
  - intros Hty. apply in_map_iff in Hty. destruct Hty as (app & Hty & Happ).
    eexists. split.
    + unfold getApps. apply in_map_iff. exists app. split; [reflexivity|exact Happ].
    + simpl. apply in_map. apply filter_In. split; [exact Hc|].
      apply String.eqb_eq. now symmetry.
Qed.

Lemma getApps_lists_credential_iff_witness :
  exists out,
    In out (getApps Sample.catalog Sample.userCredentials) /\
    In (mkCredentialData 3 "zoom_video") (credentials out).
Proof.
  apply (getApps_lists_credential_iff Sample.catalog Sample.userCredentials
           (mkCredential 3 "zoom_video" JS.JNull)).
  - simpl. right. right. left. reflexivity.
  - simpl. right. right. left. reflexivity.
Defined.

End ResolverMore.

Section ResolverLookups.

Import AppUtils.

Lemma find_existsb {A : Type} (f : A -> bool) (l : list A) :
  match find f l with Some _ => true | None => false end = existsb f l.
Proof.
  induction l as [|x l IH]; simpl; [reflexivity|].
  destruct (f x); [reflexivity | exact IH].
Qed.

Lemma truthyFlag_true (b : option bool) :
  JS.truthyFlag b = true <-> b = Some true.
Proof. destruct b as [[|]|]; simpl; split; congruence. Qed.

Lemma hasIntegrationInstalled_iff (ALL_APPS_MAP : list (string * App))
      (type : string) :
  hasIntegrationInstalled ALL_APPS_MAP type = true <->
  exists app,
    In app (ALL_APPS ALL_APPS_MAP) /\
    app_type app = type /\ app_installed app = Some true.
Proof.
  unfold hasIntegrationInstalled. rewrite existsb_exists.
  split; intros (app & Hin & H); exists app; split; try exact Hin.
  - apply andb_true_iff in H. destruct H as [Hty Hinst].
    apply String.eqb_eq in Hty. apply truthyFlag_true in Hinst. auto.
  - destruct H as [Hty Hinst]. apply andb_true_iff.
    split; [now apply String.eqb_eq | now apply truthyFlag_true].
Qed.

(** [hasIntegration] after [getApps]: what an accepted type tells. *)
Lemma hasIntegration_on_getApps_elim (ALL_APPS_MAP : list (string * App))
      (userCredentials : list Credential) (type : string) :
  hasIntegration (getApps ALL_APPS_MAP userCredentials) type = true ->
  hasIntegrationInstalled ALL_APPS_MAP type = true /\
  (type = "daily_video" \/ type = "jitsi_video" \/ type = "huddle01_video" \/
   exists c, In c userCredentials /\ cred_type c = type).
Proof.
  unfold hasIntegration. rewrite find_existsb, hasIntegrationInstalled_iff.
  unfold getApps. rewrite existsb_exists.
  intros (out & Hout & Hok). apply in_map_iff in Hout.
  destruct Hout as (app & <- & Happ). simpl in Hok.
  rewrite !andb_true_iff, !orb_true_iff, !String.eqb_eq in Hok.
  destruct Hok as [[Hty Hinst] Huse]. apply truthyFlag_true in Hinst.
  split; [exists app; auto|].
  destruct Huse as [[[H|H]|H]|H]; auto.
  right. right. right. apply Nat.ltb_lt in H. rewrite length_map in H.
  destruct (filter _ userCredentials) as [|c l] eqn:E; [simpl in H; lia|].
  assert (Hf : In c (filter (fun c => cred_type c =? app_type app)
                            userCredentials)) by (rewrite E; now left).
  apply filter_In in Hf. destruct Hf as [Hc Hct]. apply String.eqb_eq in Hct.
  exists c. split; [exact Hc | congruence].
Qed.

(** [hasIntegration] after [getApps]: what makes a type accepted. *)
Lemma hasIntegration_on_getApps_intro (ALL_APPS_MAP : list (string * App))
      (userCredentials : list Credential) (type : string) :
  hasIntegrationInstalled ALL_APPS_MAP type = true ->
  (type = "daily_video" \/ type = "jitsi_video" \/ type = "huddle01_video" \/
   exists c, In c userCredentials /\ cred_type c = type) ->
  hasIntegration (getApps ALL_APPS_MAP userCredentials) type = true.
Proof.
  unfold hasIntegration. rewrite find_existsb, hasIntegrationInstalled_iff.
  unfold getApps. rewrite existsb_exists.
  intros (app & Happ & Hty & Hinst) Huse.
  eexists. split; [apply in_map_iff; exists app; split; [reflexivity|exact Happ]|].
  simpl. rewrite !andb_true_iff, !orb_true_iff, !String.eqb_eq.
  split; [split; [exact Hty | now apply truthyFlag_true]|].
  destruct Huse as [H|[H|[H|(c & Hc & Hct)]]]; auto.
  right. apply Nat.ltb_lt. rewrite length_map.
  assert (Hf : In c (filter (fun c => cred_type c =? app_type app)
                            userCredentials)).
  { apply filter_In. split; [exact Hc|]. apply String.eqb_eq. congruence. }
  destruct (filter _ userCredentials); [destruct Hf | simpl; lia].
Qed.

(** X4. On the result of [getApps], [hasIntegration] holds for a type
    exactly when the catalog has an installed app of that type and either
    the type is one of "daily_video", "jitsi_video", "huddle01_video" or
    the user holds a credential of that type. *)
Theorem hasIntegration_getApps_iff (ALL_APPS_MAP : list (string * App))
        (userCredentials : list Credential) (type : string) :
  hasIntegration (getApps ALL_APPS_MAP userCredentials) type = true <->
  hasIntegrationInstalled ALL_APPS_MAP type = true /\
  (type = "daily_video" \/ type = "jitsi_video" \/ type = "huddle01_video" \/
   exists c, In c userCredentials /\ cred_type c = type).
Proof.
  split.
  - apply hasIntegration_on_getApps_elim.
  - intros [Hinst Huse]. now apply hasIntegration_on_getApps_intro.
Qed.

(** X5. Holding more credentials never loses an integration: what
    [hasIntegration] accepts for some credentials it accepts for any list
    that extends them. *)
Theorem hasIntegration_getApps_monotone (ALL_APPS_MAP : list (string * App))
        (userCredentials more : list Credential) (type : string) :
  hasIntegration (getApps ALL_APPS_MAP userCredentials) type = true ->
  hasIntegration (getApps ALL_APPS_MAP (userCredentials ++ more)) type = true.
Proof.
  intros H. apply hasIntegration_on_getApps_elim in H.
  destruct H as [Hinst Huse].
  apply hasIntegration_on_getApps_intro; [exact Hinst|].
  destruct Huse as [H|[H|[H|(c & Hc & Hct)]]]; auto.
  right. right. right. exists c. split; [|exact Hct].
  apply in_or_app. now left.
Qed.

Lemma hasIntegration_getApps_monotone_witness :
  hasIntegration
    (getApps Sample.catalog
             (Sample.userCredentials ++ [mkCredential 4 "stripe_payment" JS.JNull]))
    "zoom_video" = true.
Proof.
  apply (hasIntegration_getApps_monotone Sample.catalog Sample.userCredentials).
  reflexivity.
Defined.

(** X6. [getAppType] raises exactly for the names that are no key of the
    catalog map, the inherited property names included; for a key it
    returns one of "Calendar", "Payment", "Unknown". *)
Theorem getAppType_raises_iff (ALL_APPS_MAP : list (string * App))
        (name : string) :
  (getAppType ALL_APPS_MAP name = JS.Throw JS.TypeError <->
   ~ In name (map fst ALL_APPS_MAP)) /\
  (In name (map fst ALL_APPS_MAP) ->
   getAppType ALL_APPS_MAP name = JS.Return "Calendar" \/
   getAppType ALL_APPS_MAP name = JS.Return "Payment" \/
   getAppType ALL_APPS_MAP name = JS.Return "Unknown").
Proof.
  unfold getAppType, JS.lookup.
  destruct (JS.own name ALL_APPS_MAP) as [app|] eqn:Hown.
  - assert (Hkey : In name (map fst ALL_APPS_MAP)).
    { apply own_In in Hown. change name with (fst (name, app)). now apply in_map. }
    split.
    + split; [|contradiction].
      destruct (JS.endsWith (app_type app) "_calendar");
        [|destruct (JS.endsWith (app_type app) "_payment")]; discriminate.
    + intros _.
      destruct (JS.endsWith (app_type app) "_calendar");
        [|destruct (JS.endsWith (app_type app) "_payment")]; auto.
  - apply own_None in Hown. split; [|contradiction].
    split; [intros _; exact Hown|]. intros _.
    destruct (JS.own name JS.Object_prototype_functions); [reflexivity|].
    destruct (name =? "__proto__"); reflexivity.
Qed.

Lemma getAppType_raises_iff_witness :
  getAppType Sample.catalog "zoom_video" = JS.Return "Calendar" \/
  getAppType Sample.catalog "zoom_video" = JS.Return "Payment" \/
  getAppType Sample.catalog "zoom_video" = JS.Return "Unknown".
Proof.
  apply (proj2 (getAppType_raises_iff Sample.catalog "zoom_video")).
  simpl. right. right. left. reflexivity.
Defined.

(** X7. [getAppName] raises exactly for the names that are neither a key
    of the catalog map nor inherited from [Object.prototype]. *)
Theorem getAppName_raises_iff (ALL_APPS_MAP : list (string * App))
        (name : string) :
  getAppName ALL_APPS_MAP name = JS.Throw JS.TypeError <->
  ~ In name (map fst ALL_APPS_MAP) /\ ~ inherited name.
Proof.
  split.
  - intros Hthrow. split.
    + intros Hkey.
      destruct (JS.own name ALL_APPS_MAP) as [app|] eqn:Hown.
      * unfold getAppName in Hthrow. rewrite (lookup_own _ _ _ Hown) in Hthrow.
        discriminate.
      * apply own_None in Hown. contradiction.
    + intros Hinh. destruct (getAppName_inherited ALL_APPS_MAP name Hinh) as [v Hv].
      congruence.
  - intros [Hkey Hinh]. apply own_None in Hkey. unfold getAppName.
    now rewrite (lookup_missing _ _ Hkey Hinh).
Qed.

End ResolverLookups.

(* ================================================================== *)
(** ** Further properties of the booking page loader *)
(* ================================================================== *)

Section LoaderMore.

Import JS Book.

Variable ssrInit : Context -> Ssr.
Variable getTranslation : string -> string -> (string -> string).
Variable getLocationLabels : (string -> string) -> list (string * string).
Variable Date_toString : Z -> string.
Variable prisma : Prisma.

Local Abbreviation run :=
  (getServerSideProps ssrInit getTranslation getLocationLabels Date_toString prisma).

Local Ltac unfold_run :=
  unfold getServerSideProps, bind, lift, ret, disposableLink_findUnique,
    user_findMany, credential_findMany, issue, resolveUserId, asStringOrThrow.

Local Ltac split_cases :=
  repeat match goal with
         | |- context [match ?x with _ => _ end] => destruct x eqn:?; simpl
         end.

(** X8. When the request's [link] is not a single string, the loader
    raises the helper's error before any query is issued. *)
Theorem getServerSideProps_link_not_string (context : Context)
        (log : list Fetch) :
  (forall link, query_link context <> QOne link) ->
  run context log = (Throw ExpectedString, log).
Proof.
  intros Hlink. unfold_run.
  destruct (query_link context) as [|link|l]; try reflexivity.
  exfalso. exact (Hlink link eq_refl).
Qed.

(** X9. Whatever the request and the database, the loader issues at most
    three queries, always in the order link lookup, user lookup,
    credential lookup, appended to the log; it never issues a booking
    query. *)
Theorem getServerSideProps_queries (context : Context) (log : list Fetch) :
  exists issued,
    snd (run context log) = (log ++ issued)%list /\
    (forall uid, ~ In (FetchBooking uid) issued) /\
    (issued = [] \/
     (exists link, issued = [FetchDisposableLink link (query_slug context)]) \/
     (exists link uid,
         issued = [FetchDisposableLink link (query_slug context); FetchUsers uid]) \/
     (exists link uid userIds,
         issued = [FetchDisposableLink link (query_slug context); FetchUsers uid;
                   FetchCredentials userIds])).
Proof.
  assert (Hshape : exists issued,
             snd (run context log) = (log ++ issued)%list /\
             (issued = [] \/
              (exists link, issued = [FetchDisposableLink link (query_slug context)]) \/
              (exists link uid,
                  issued = [FetchDisposableLink link (query_slug context);
                            FetchUsers uid]) \/
              (exists link uid userIds,
                  issued = [FetchDisposableLink link (query_slug context);
                            FetchUsers uid; FetchCredentials userIds]))).
  { unfold_run. split_cases;
      try (exists []; split; [symmetry; apply app_nil_r | now left]);
      eexists; (split; [rewrite <- ?app_assoc; simpl; reflexivity|]); eauto 10. }
  destruct Hshape as (issued & Hlog & Hshape). exists issued.
  split; [exact Hlog|]. split; [|exact Hshape].
  intros u Hin.
  destruct Hshape as [-> | [(l & ->) | [(l & i & ->) | (l & i & ids & ->)]]];
    simpl in Hin; intuition discriminate.
Qed.

(** Returned props, written out in full. *)
Lemma getServerSideProps_props_eq (context : Context) (log log' : list Fetch)
      (p : PageProps) :
  run context log = (Return (Props p), log') ->
  exists link e user rest,
    query_link context = QOne link /\
    p = {| locationLabels :=
             getLocationLabels
               (getTranslation
                  (match locale context with Some l => l | None => "en" end)
                  "common");
           profile := profile_of user;
           eventType :=
             eventTypeObject_of Date_toString e
               (db_credential_findMany prisma (map user_id (user :: rest)));
           booking := None;
           trpcState := dehydrate (ssrInit context);
           isDynamicGroupBooking := false;
           isDisposableBookingLink := true;
           disposableBookingObject :=
             {| dbo_slug := query_slug context; dbo_link := link |} |}.
Proof.
  unfold_run.
  destruct (query_link context) as [|link|l] eqn:Hlink; try discriminate.
  destruct (db_disposableLink_findUnique prisma link (query_slug context))
    as [d|]; simpl; [|discriminate].
  destruct (dl_expired d); [discriminate|].
  destruct (truthyNumber (dl_userId d));
    [|destruct (dl_eventType d) as [e0|] eqn:He0; [|discriminate]]; simpl;
    match goal with
    | |- context [negb (truthyNumber ?u)] =>
        destruct (truthyNumber u); simpl; [|discriminate];
        destruct u as [uid|]; [|discriminate]
    end;
    destruct (db_user_findMany prisma uid) as [|user rest]; try discriminate;
    try rewrite He0;
    destruct (dl_eventType d) as [e|]; try discriminate;
    intros H; injection H as Hp _; subst p;
    try (injection He0 as He0; subst e0);
    exists link, e, user, rest; split; reflexivity.
Qed.

(** X10. Whatever props the loader returns, the two mode flags are fixed
    ([isDynamicGroupBooking] false, [isDisposableBookingLink] true), the
    booking is null, and [disposableBookingObject] repeats the request's
    link and slug. *)
Theorem getServerSideProps_props_constants (context : Context)
        (log log' : list Fetch) (p : PageProps) :
  run context log = (Return (Props p), log') ->
  isDynamicGroupBooking p = false /\
  isDisposableBookingLink p = true /\
  booking p = None /\
  trpcState p = dehydrate (ssrInit context) /\
  query_link context = QOne (dbo_link (disposableBookingObject p)) /\
  dbo_slug (disposableBookingObject p) = query_slug context.
Proof.
  intros H. apply getServerSideProps_props_eq in H.
  destruct H as (link & e & user & rest & Hlink & ->). simpl. auto 10.
Qed.

(** X11. A live link whose owner id resolves but matches no user row is
    answered with not-found after the link and user lookups; no credential
    query is issued. *)
Theorem getServerSideProps_no_users (context : Context) (log : list Fetch)
        (link : string) (d : DisposableLink) (uid : Z) :
  query_link context = QOne link ->
  db_disposableLink_findUnique prisma link (query_slug context) = Some d ->
  dl_expired d = false ->
  resolveUserId (Some d) = Return (Some uid) ->
  uid <> 0%Z ->
  db_user_findMany prisma uid = [] ->
  run context log =
    (Return NotFound,
     (log ++ [FetchDisposableLink link (query_slug context); FetchUsers uid])%list).
Proof.
  intros Hlink Hd Hexp Hres Hne Hu. unfold_run.
  rewrite Hlink, Hd. simpl. rewrite Hexp. unfold resolveUserId in Hres.
  rewrite Hres. simpl. apply Z.eqb_neq in Hne. rewrite Hne. simpl.
  rewrite Hu, <- app_assoc. reflexivity.
Qed.

(** X12. A live link that names its owner but has no event type is
    answered with not-found after the link and user lookups, without an
    error and without a credential query. *)
Theorem getServerSideProps_owner_without_eventType (context : Context)
        (log : list Fetch) (link : string) (d : DisposableLink) (uid : Z) :
  query_link context = QOne link ->
  db_disposableLink_findUnique prisma link (query_slug context) = Some d ->
  dl_expired d = false ->
  dl_userId d = Some uid ->
  uid <> 0%Z ->
  dl_eventType d = None ->
  run context log =
    (Return NotFound,
     (log ++ [FetchDisposableLink link (query_slug context); FetchUsers uid])%list).
Proof.
  intros Hlink Hd Hexp Hid Hne He. unfold_run.
  rewrite Hlink, Hd. simpl. rewrite Hexp, Hid. simpl.
  apply Z.eqb_neq in Hne. rewrite Hne. simpl. rewrite Hne. simpl.
  rewrite He, <- app_assoc.
  destruct (db_user_findMany prisma uid); reflexivity.
Qed.

(** X13. The record's own [userId], when it is a non-zero number, decides
    which user is looked up: the event type's [userId] is not consulted. *)
Theorem getServerSideProps_owner_precedence (context : Context)
        (log : list Fetch) (link : string) (d : DisposableLink) (uid : Z) :
  query_link context = QOne link ->
  db_disposableLink_findUnique prisma link (query_slug context) = Some d ->
  dl_expired d = false ->
  dl_userId d = Some uid ->
  uid <> 0%Z ->
  exists rest,
    snd (run context log) =
      (log ++ FetchDisposableLink link (query_slug context) :: FetchUsers uid :: rest)%list /\
    (rest = [] \/ exists userIds, rest = [FetchCredentials userIds]).
Proof.
  intros Hlink Hd Hexp Hid Hne. unfold_run.
  rewrite Hlink, Hd. simpl. rewrite Hexp, Hid. simpl.
  apply Z.eqb_neq in Hne. rewrite Hne. simpl. rewrite Hne. simpl.
  destruct (db_user_findMany prisma uid) as [|user rest];
    [|destruct (dl_eventType d)]; simpl; rewrite <- ?app_assoc; simpl;
    eexists; (split; [reflexivity|]); eauto.
Qed.

(** X14. A live link with a resolvable owner, at least one user row and
    an event type always yields props, after exactly the link, user and
    credential lookups; the profile is built from the first user row and
    the credentials are fetched for the ids of all rows. *)
Theorem getServerSideProps_live_link (context : Context) (log : list Fetch)
        (link : string) (d : DisposableLink) (e : EventType) (uid : Z)
        (user : User) (rest : list User) :
  query_link context = QOne link ->
  db_disposableLink_findUnique prisma link (query_slug context) = Some d ->
  dl_expired d = false ->
  dl_eventType d = Some e ->
  orNumber (dl_userId d) (et_userId e) = Some uid ->
  uid <> 0%Z ->
  db_user_findMany prisma uid = user :: rest ->
  exists p,
    run context log =
      (Return (Props p),
       (log ++ [FetchDisposableLink link (query_slug context);
                FetchUsers uid;
                FetchCredentials (map user_id (user :: rest))])%list) /\
    profile_slug (profile p) = user_username user /\
    profile_image (profile p) = user_avatar user /\
    eto_id (eventType p) = et_id e /\
    eto_isWeb3Active (eventType p) =
      isWeb3Active_of
        (find_web3 (db_credential_findMany prisma (map user_id (user :: rest)))).
Proof.
  intros Hlink Hd Hexp He Hor Hne Hu.
  destruct (getServerSideProps_success ssrInit getTranslation getLocationLabels
              Date_toString prisma context log link d e uid user rest
              Hlink Hd Hexp He Hor Hne Hu) as (p & Hrun & _ & Het).
  exists p. split; [exact Hrun|].
  destruct (getServerSideProps_props_inv ssrInit getTranslation getLocationLabels
              Date_toString prisma context log _ p Hrun)
    as (link' & d' & e' & uid' & user' & rest' & Hlink' & Hd' & _ & He' & _ & _
        & Hu' & Hlog' & _ & Hprof & _).
  apply app_inv_head in Hlog'. injection Hlog' as Hl Huid _.
  subst uid'. rewrite Hu in Hu'. injection Hu' as <- <-.
  rewrite Hprof, Het. simpl. auto.
Qed.


(** X16. In returned props [isWeb3Active] is either [false] or a truthy
    value; when the first fetched "_web3" credential's key carries a truthy
    [isWeb3Active], the flag is that very value, not coerced to a
    boolean. *)
Theorem getServerSideProps_isWeb3Active_value (context : Context)
        (log log' : list Fetch) (p : PageProps) :
  run context log = (Return (Props p), log') ->
  (eto_isWeb3Active (eventType p) = JBool false \/
   truthy (eto_isWeb3Active (eventType p)) = true) /\
  exists link uid userIds,
    log' = (log ++ [FetchDisposableLink link (query_slug context);
                    FetchUsers uid;
                    FetchCredentials userIds])%list /\
    forall c v,
      first_web3 (db_credential_findMany prisma userIds) c ->
      member (cred_key c) "isWeb3Active" = Some v ->
      truthy v = true ->
      eto_isWeb3Active (eventType p) = v.
Proof.
  intros H.
  destruct (getServerSideProps_web3_flag ssrInit getTranslation getLocationLabels
              Date_toString prisma context log log' p H)
    as (link & uid & userIds & Hlog & Hflag).
  rewrite Hflag. split.
  - unfold isWeb3Active_of.
    destruct (find_web3 _) as [c|]; [|now left].
    destruct (truthy (cred_key c)); [|now left].
    destruct (member (cred_key c) "isWeb3Active") as [v|]; [|now left].
    destruct (truthy v) eqn:Hv; [now right | now left].
  - exists link, uid, userIds. split; [exact Hlog|].
    intros c v Hfirst Hmem Hv. rewrite (find_web3_first _ _ Hfirst).
    unfold isWeb3Active_of. rewrite Hmem, Hv.
    destruct (cred_key c); try discriminate. reflexivity.
Qed.

(** X17. In returned props the profile is taken from the first user row:
    its name is that user's name when non-empty and the username
    otherwise, its slug the username, and no event name is set. *)
Theorem getServerSideProps_profile (context : Context)
        (log log' : list Fetch) (p : PageProps) :
  run context log = (Return (Props p), log') ->
  exists uid user rest,
    In (FetchUsers uid) log' /\
    db_user_findMany prisma uid = user :: rest /\
    profile_slug (profile p) = user_username user /\
    profile_eventName (profile p) = None /\
    (forall name, user_name user = Some name -> name <> EmptyString ->
                  profile_name (profile p) = Some name) /\
    (user_name user = None \/ user_name user = Some EmptyString ->
     profile_name (profile p) = user_username user).
Proof.
  intros H.
  destruct (getServerSideProps_props_inv ssrInit getTranslation getLocationLabels
              Date_toString prisma context log log' p H)
    as (link & d & e & uid & user & rest & _ & _ & _ & _ & _ & _
        & Hu & Hlog & _ & Hprof & _).
  exists uid, user, rest. rewrite Hprof, Hlog. simpl.
  split; [apply in_or_app; right; simpl; auto|].
  split; [exact Hu|]. split; [reflexivity|]. split; [reflexivity|].
  unfold orString, truthyString. split.
  - intros name Hname Hne. rewrite Hname.
    apply String.eqb_neq in Hne. now rewrite Hne.
  - intros [Hname | Hname]; rewrite Hname; reflexivity.
Qed.

(** X18. [getBooking] raises the helper's error, issuing no query, unless
    the request carries a single-string reschedule identifier; with one it
    issues exactly one booking query and returns its answer. *)
Theorem getBooking_behaviour (context : Context) (log : list Fetch) :
  (forall uid,
      query_rescheduleUid context = QOne uid ->
      getBooking prisma context log =
        (Return (db_booking_findFirst prisma uid), (log ++ [FetchBooking uid])%list)) /\
  ((forall uid, query_rescheduleUid context <> QOne uid) ->
   getBooking prisma context log = (Throw ExpectedString, log)).
Proof.
  unfold getBooking, bind, lift, booking_findFirst, issue, asStringOrThrow.
  split.
  - intros uid ->. reflexivity.
  - intros Hno. destruct (query_rescheduleUid context) as [|uid|l];
      try reflexivity.
    exfalso. exact (Hno uid eq_refl).
Qed.

End LoaderMore.

(* ================================================================== *)
(** ** Properties of the assembled catalog map *)
(* ================================================================== *)

Section CatalogFacts.

Import CatalogMap.

Context {A : Type}.

Implicit Types (o t s : list (string * A)) (k : string) (v : A).

Lemma own_app k o1 o2 :
  JS.own k (o1 ++ o2) =
  match JS.own k o1 with Some x => Some x | None => JS.own k o2 end.
Proof.
  induction o1 as [|[k1 v1] o1 IH]; simpl; [reflexivity|].
  destruct (k1 =? k); [reflexivity | exact IH].
Qed.

Lemma map_fst_overwrite k v o : map fst (overwrite k v o) = map fst o.
Proof.
  induction o as [|[k1 v1] o IH]; simpl; [reflexivity|].
  destruct (k1 =? k); simpl; [reflexivity | now rewrite IH].
Qed.

Lemma own_overwrite k v o k' :
  JS.own k' (overwrite k v o) =
  if k =? k' then match JS.own k o with Some _ => Some v | None => None end
  else JS.own k' o.
Proof.
  induction o as [|[k1 v1] o IH]; simpl.
  - now destruct (k =? k').
  - destruct (k1 =? k) eqn:E1; simpl.
    + apply String.eqb_eq in E1. subst k1.
      destruct (k =? k'); reflexivity.
    + destruct (k1 =? k') eqn:E2.
      * apply String.eqb_eq in E2. subst k1.
        rewrite String.eqb_sym in E1. now rewrite E1.
      * exact IH.
Qed.

Lemma own_insert_index n k v o k' :
  JS.own k o = None ->
  JS.own k' (insert_index n k v o) = if k =? k' then Some v else JS.own k' o.
Proof.
  induction o as [|[k1 v1] o IH]; simpl; intros Hk.
  - reflexivity.
  - destruct (k1 =? k) eqn:E1; [discriminate|].
    destruct (array_index k1) as [m|]; [destruct (m <? n)%N|]; simpl;
      try reflexivity.
    destruct (k1 =? k') eqn:E2; [|now apply IH].
    apply String.eqb_eq in E2. subst k1.
    rewrite String.eqb_sym in E1. now rewrite E1.
Qed.

Lemma own_defineProperty k v o k' :
  JS.own k' (defineProperty k v o) = if k =? k' then Some v else JS.own k' o.
Proof.
  unfold defineProperty, has.
  destruct (JS.own k o) as [x|] eqn:Hk.
  - rewrite own_overwrite, Hk. reflexivity.
  - destruct (array_index k) as [n|].
    + now apply own_insert_index.
    + rewrite own_app. simpl.
      destruct (k =? k') eqn:E.
      * apply String.eqb_eq in E. subst k'. now rewrite Hk.
      * now destruct (JS.own k' o).
Qed.

(** In a spread the last definition of a key wins, and keys the source
    does not define keep the target's value. *)
Lemma own_spread k t s :
  JS.own k (spread t s) =
  match JS.own k (rev s) with Some x => Some x | None => JS.own k t end.
Proof.
  unfold spread. revert t. induction s as [|[k1 v1] s IH]; intros t; simpl.
  - reflexivity.
  - rewrite IH, own_app, own_defineProperty. simpl.
    destruct (JS.own k (rev s)); [reflexivity|].
    now destruct (k1 =? k).
Qed.

Lemma own_rev k s : object_like s -> JS.own k (rev s) = JS.own k s.
Proof.
  unfold object_like. induction s as [|[k1 v1] s IH]; simpl; intros Hnd.
  - reflexivity.
  - inversion Hnd as [|? ? Hnotin Hnd']; subst.
    rewrite own_app, (IH Hnd'). simpl.
    destruct (k1 =? k) eqn:E.
    + apply String.eqb_eq in E. subst k1.
      apply own_None in Hnotin. now rewrite Hnotin.
    + now destruct (JS.own k s).
Qed.

Lemma In_keys k o : In k (map fst o) <-> JS.own k o <> None.
Proof.
  pose proof (own_None k o) as H. destruct (JS.own k o) as [x|].
  - split; [discriminate|]. intros _.
    destruct (in_dec string_dec k (map fst o)) as [Hin|Hout]; [exact Hin|].
    apply H in Hout. discriminate.
  - split; [|congruence]. intros Hin. exfalso. now apply (proj1 H).
Qed.

Lemma keys_defineProperty k v o x :
  In x (map fst (defineProperty k v o)) <-> x = k \/ In x (map fst o).
Proof.
  rewrite !In_keys, own_defineProperty.
  destruct (k =? x) eqn:E.
  - apply String.eqb_eq in E. split; [auto | discriminate].
  - apply String.eqb_neq in E. split; [auto|].
    intros [Hx | Hx]; [congruence | exact Hx].
Qed.

Lemma keys_spread t s x :
  In x (map fst (spread t s)) <-> In x (map fst t) \/ In x (map fst s).
Proof.
  unfold spread. revert t. induction s as [|[k1 v1] s IH]; intros t; simpl.
  - tauto.
  - rewrite IH, keys_defineProperty. intuition auto.
Qed.

Lemma keys_insert_index n k v o x :
  In x (map fst (insert_index n k v o)) <-> x = k \/ In x (map fst o).
Proof.
  induction o as [|[k1 v1] o IH]; simpl.
  - intuition auto.
  - destruct (array_index k1) as [m|]; [destruct (m <? n)%N|]; simpl;
      rewrite ?IH; intuition auto.
Qed.

Lemma NoDup_insert_index n k v o :
  ~ In k (map fst o) -> NoDup (map fst o) ->
  NoDup (map fst (insert_index n k v o)).
Proof.
  induction o as [|[k1 v1] o IH]; simpl; intros Hk Hnd.
  - constructor; [intros [] | constructor].
  - inversion Hnd as [|? ? Hnotin Hnd']; subst.
    destruct (array_index k1) as [m|]; [destruct (m <? n)%N|]; simpl;
      try (constructor; [simpl; tauto | exact Hnd]).
    constructor.
    + rewrite keys_insert_index. intros [-> | Hin]; [apply Hk; now left | auto].
    + apply IH; [tauto | exact Hnd'].
Qed.

Lemma object_like_defineProperty k v o :
  object_like o -> object_like (defineProperty k v o).
Proof.
  unfold object_like, defineProperty, has. intros Hnd.
  destruct (JS.own k o) as [x|] eqn:Hk.
  - now rewrite map_fst_overwrite.
  - apply own_None in Hk.
    destruct (array_index k) as [n|].
    + now apply NoDup_insert_index.
    + rewrite map_app. simpl. apply NoDup_app; auto.
      * now apply NoDup_cons; [intros [] | constructor].
      * intros x Hx [<- | []]. contradiction.
Qed.

Lemma object_like_spread t s : object_like t -> object_like (spread t s).
Proof.
  unfold spread. revert t. induction s as [|[k1 v1] s IH]; intros t Ht; simpl.
  - exact Ht.
  - apply IH. now apply object_like_defineProperty.
Qed.

Lemma index_key_inj (i j : nat) : index_key i = index_key j -> i = j.
Proof.
  unfold index_key. intros H.
  apply (f_equal NilEmpty.uint_of_string) in H. rewrite !NilEmpty.usu in H.
  injection H as H. apply Unsigned.to_uint_inj in H. now apply Nat2N.inj.
Qed.

Lemma array_index_index_key (i : nat) :
  (N.of_nat i < 2 ^ 32 - 1)%N -> array_index (index_key i) = Some (N.of_nat i).
Proof.
  intros Hi. unfold array_index, index_key.
  rewrite NilEmpty.usu. cbv zeta. rewrite Unsigned.of_to, String.eqb_refl.
  apply N.ltb_lt in Hi. now rewrite Hi.
Qed.

Lemma map_fst_array_entries (xs : list A) :
  map fst (array_entries xs) = map index_key (seq 0 (List.length xs)).
Proof.
  unfold array_entries. generalize 0%nat.
  induction xs as [|x xs IH]; intros a; simpl; [reflexivity|].
  now rewrite IH.
Qed.

Lemma map_snd_array_entries (xs : list A) : map snd (array_entries xs) = xs.
Proof.
  unfold array_entries. generalize 0%nat.
  induction xs as [|x xs IH]; intros a; simpl; [reflexivity|].
  now rewrite IH.
Qed.

Lemma keys_array_entries (xs : list A) k :
  In k (map fst (array_entries xs)) <->
  exists i, (i < List.length xs)%nat /\ k = index_key i.
Proof.
  rewrite map_fst_array_entries, in_map_iff. split.
  - intros (i & <- & Hi). apply in_seq in Hi. exists i. split; [lia | reflexivity].
  - intros (i & Hi & ->). exists i. split; [reflexivity|]. apply in_seq. lia.
Qed.

Lemma NoDup_index_keys (l : list nat) : NoDup l -> NoDup (map index_key l).
Proof.
  induction 1 as [|i l Hnotin Hnd IH]; simpl; constructor; [|exact IH].
  intros Hin. apply in_map_iff in Hin. destruct Hin as (j & Hj & Hin).
  apply index_key_inj in Hj. now subst j.
Qed.

Lemma object_like_array_entries (xs : list A) : object_like (array_entries xs).
Proof.
  unfold object_like. rewrite map_fst_array_entries.
  apply NoDup_index_keys, seq_NoDup.
Qed.

Lemma own_array_entries (xs : list A) (i : nat) :
  JS.own (index_key i) (array_entries xs) = nth_error xs i.
Proof.
  unfold array_entries.
  assert (H : forall a, (a <= i)%nat ->
            JS.own (index_key i)
                   (combine (map index_key (seq a (List.length xs))) xs)
            = nth_error xs (i - a)).
  { induction xs as [|x xs IH]; intros a Ha; simpl.
    - now destruct (i - a)%nat.
    - destruct (index_key a =? index_key i) eqn:E.
      + apply String.eqb_eq, index_key_inj in E. subst a.
        now rewrite Nat.sub_diag.
      + apply String.eqb_neq in E.
        assert (a <> i) by (intros ->; now apply E).
        rewrite IH by lia.
        replace (i - a)%nat with (S (i - S a)) by lia. reflexivity. }
  rewrite (H 0%nat) by lia. now rewrite Nat.sub_0_r.
Qed.

End CatalogFacts.

Section CatalogOrder.

Import CatalogMap.

Context {A : Type}.

Implicit Types (o t s pre : list (string * A)) (k : string) (v : A).

(** All keys of [o] are array indices below [n]. *)
Local Abbreviation indices_below n o :=
  (Forall (fun kv : string * A =>
             exists m, array_index (fst kv) = Some m /\ (m < n)%N) o).

Lemma define_index_end n k v o :
  indices_below n o -> array_index k = Some n ->
  defineProperty k v o = (o ++ [(k, v)])%list.
Proof.
  intros Hbelow Hk. unfold defineProperty, has.
  assert (Hown : JS.own k o = None).
  { apply own_None. intros Hin. apply in_map_iff in Hin.
    destruct Hin as ([k1 v1] & Hk1 & Hin). simpl in Hk1. subst k1.
    rewrite Forall_forall in Hbelow.
    destruct (Hbelow _ Hin) as (m & Hm & Hlt). simpl in Hm.
    rewrite Hk in Hm. injection Hm as <-. lia. }
  rewrite Hown, Hk. clear Hown.
  induction Hbelow as [|[k1 v1] o (m & Hm & Hlt) Hbelow IH]; simpl.
  - reflexivity.
  - simpl in Hm. rewrite Hm. apply N.ltb_lt in Hlt. rewrite Hlt.
    now rewrite IH.
Qed.

Lemma spread_indices (xs : list A) (a : nat) o :
  indices_below (N.of_nat a) o ->
  (N.of_nat (a + List.length xs) <= 2 ^ 32 - 1)%N ->
  spread o (combine (map index_key (seq a (List.length xs))) xs) =
  (o ++ combine (map index_key (seq a (List.length xs))) xs)%list.
Proof.
  revert a o. induction xs as [|x xs IH]; intros a o Hbelow Hlen; simpl.
  - now rewrite app_nil_r.
  - simpl in Hlen.
    assert (Ha : array_index (index_key a) = Some (N.of_nat a)).
    { apply array_index_index_key. lia. }
    unfold spread. simpl. rewrite (define_index_end _ _ _ _ Hbelow Ha).
    fold (spread (o ++ [(index_key a, x)])
                 (combine (map index_key (seq (S a) (List.length xs))) xs)).
    rewrite IH.
    + now rewrite <- app_assoc.
    + apply Forall_app. split.
      * eapply Forall_impl; [|exact Hbelow].
        intros kv (m & Hm & Hlt). exists m. split; [exact Hm | lia].
      * constructor; [|constructor]. exists (N.of_nat a). split; [exact Ha | lia].
    + lia.
Qed.

Lemma spread_array_entries (xs : list A) :
  (N.of_nat (List.length xs) <= 2 ^ 32 - 1)%N ->
  spread [] (array_entries xs) = array_entries xs.
Proof.
  intros Hlen. unfold array_entries.
  rewrite spread_indices; [reflexivity | constructor | exact Hlen].
Qed.

Lemma overwrite_after pre k v t :
  ~ In k (map fst pre) ->
  overwrite k v (pre ++ t) = (pre ++ overwrite k v t)%list.
Proof.
  induction pre as [|[k1 v1] pre IH]; simpl; intros Hk; [reflexivity|].
  destruct (k1 =? k) eqn:E.
  - apply String.eqb_eq in E. exfalso. auto.
  - rewrite IH by tauto. reflexivity.
Qed.

Lemma define_after_indices pre k v t :
  (forall k', In k' (map fst pre) -> array_index k' <> None) ->
  array_index k = None ->
  defineProperty k v (pre ++ t) = (pre ++ defineProperty k v t)%list.
Proof.
  intros Hpre Hk.
  assert (Hnotin : ~ In k (map fst pre)).
  { intros Hin. now apply (Hpre k Hin). }
  unfold defineProperty, has. rewrite own_app.
  rewrite (proj2 (own_None k pre) Hnotin), Hk.
  destruct (JS.own k t).
  - now apply overwrite_after.
  - now rewrite app_assoc.
Qed.

Lemma spread_after_indices pre t s :
  (forall k', In k' (map fst pre) -> array_index k' <> None) ->
  (forall k, In k (map fst s) -> array_index k = None) ->
  spread (pre ++ t) s = (pre ++ spread t s)%list.
Proof.
  intros Hpre. unfold spread. revert t.
  induction s as [|[k1 v1] s IH]; intros t Hs; simpl; [reflexivity|].
  rewrite define_after_indices; [|exact Hpre | apply Hs; now left].
  apply IH. intros k Hk. apply Hs. now right.
Qed.

Lemma array_entries_indices (xs : list A) :
  (N.of_nat (List.length xs) <= 2 ^ 32 - 1)%N ->
  forall k', In k' (map fst (array_entries xs)) -> array_index k' <> None.
Proof.
  intros Hlen k' Hin. apply keys_array_entries in Hin.
  destruct Hin as (i & Hi & ->). rewrite array_index_index_key; [discriminate | lia].
Qed.

End CatalogOrder.

Lemma lookup_own_name (m : list (string * AppUtils.App)) (k : string)
      (app : AppUtils.App) :
  JS.own k m = Some app ->
  match JS.lookup m k with
  | JS.OwnProperty a => JS.Return (JS.Str (AppUtils.app_name a))
  | JS.BuiltinFunction fname => JS.Return (JS.Str fname)
  | JS.PrototypeObject => JS.Return JS.Undef
  | JS.Undefined => JS.Throw JS.TypeError
  end = JS.Return (JS.Str (AppUtils.app_name app)).
Proof. intros H. now rewrite (lookup_own _ _ _ H). Qed.

Section CatalogTheorems.

Import AppUtils CatalogMap.

Variable appStoreMetadata : list App.
Variables CalendarApps ConferencingApps PaymentApps : list (string * App).

Local Abbreviation catalog :=
  (CatalogMap.ALL_APPS_MAP appStoreMetadata CalendarApps ConferencingApps PaymentApps).

(** X19. The keys of the assembled catalog map are the decimal positions
    of the app store's apps together with the keys of the three
    configuration objects, and nothing else. *)
Theorem ALL_APPS_MAP_keys (k : string) :
  In k (map fst catalog) <->
  (exists i, (i < List.length appStoreMetadata)%nat /\ k = index_key i) \/
  In k (map fst CalendarApps) \/
  In k (map fst ConferencingApps) \/
  In k (map fst PaymentApps).
Proof.
  unfold CatalogMap.ALL_APPS_MAP.
  rewrite !keys_spread, keys_array_entries. simpl. tauto.
Qed.

(** X20. The assembled catalog map has no key twice, whatever is spread
    into it. *)
Theorem ALL_APPS_MAP_object_like : object_like catalog.
Proof.
  unfold CatalogMap.ALL_APPS_MAP.
  repeat apply object_like_spread. constructor.
Qed.

(** X21. Later spreads win: a key is answered by the payment
    configuration if it defines it, else by the conferencing one, else by
    the calendar one, else by the app store array. *)
Theorem ALL_APPS_MAP_precedence (k : string) :
  object_like CalendarApps ->
  object_like ConferencingApps ->
  object_like PaymentApps ->
  JS.own k catalog =
  match JS.own k PaymentApps with
  | Some app => Some app
  | None =>
      match JS.own k ConferencingApps with
      | Some app => Some app
      | None =>
          match JS.own k CalendarApps with
          | Some app => Some app
          | None => JS.own k (array_entries appStoreMetadata)
          end
      end
  end.
Proof.
  intros Hc Hf Hp. unfold CatalogMap.ALL_APPS_MAP.
  rewrite !own_spread, (own_rev _ _ Hc), (own_rev _ _ Hf), (own_rev _ _ Hp).
  rewrite (own_rev _ _ (object_like_array_entries appStoreMetadata)).
  simpl. now destruct (JS.own k (array_entries appStoreMetadata)).
Qed.

(** X22. An app of the app store is found under its position in the
    array, not under its type: [getAppName] of the position returns its
    name unless a configuration defines that key, and [getAppName] of its
    type raises unless a configuration is keyed by it (or the type is a
    position or an inherited property name). *)
Theorem getAppName_app_store_app (i : nat) (app : App) :
  nth_error appStoreMetadata i = Some app ->
  (~ In (index_key i) (map fst CalendarApps) ->
   ~ In (index_key i) (map fst ConferencingApps) ->
   ~ In (index_key i) (map fst PaymentApps) ->
   getAppName catalog (index_key i) = JS.Return (JS.Str (app_name app))) /\
  (~ In (app_type app) (map fst CalendarApps) ->
   ~ In (app_type app) (map fst ConferencingApps) ->
   ~ In (app_type app) (map fst PaymentApps) ->
   (forall j, (j < List.length appStoreMetadata)%nat -> app_type app <> index_key j) ->
   ~ inherited (app_type app) ->
   getAppName catalog (app_type app) = JS.Throw JS.TypeError).
Proof.
  intros Hnth. split.
  - intros Hc Hf Hp. unfold getAppName.
    apply lookup_own_name.
    unfold CatalogMap.ALL_APPS_MAP. rewrite !own_spread.
    rewrite (proj2 (own_None _ (rev PaymentApps))),
            (proj2 (own_None _ (rev ConferencingApps))),
            (proj2 (own_None _ (rev CalendarApps)));
      try (rewrite map_rev, <- in_rev; assumption).
    rewrite (own_rev _ _ (object_like_array_entries appStoreMetadata)).
    now rewrite own_array_entries, Hnth.
  - intros Hc Hf Hp Hidx Hinh.
    unfold getAppName. rewrite lookup_missing; [reflexivity | | exact Hinh].
    apply own_None. unfold CatalogMap.ALL_APPS_MAP.
    rewrite !keys_spread, keys_array_entries. simpl.
    intros [[[[[] | (j & Hj & Heq)] | H] | H] | H]; auto.
    exact (Hidx j Hj Heq).
Qed.

Lemma ALL_APPS_MAP_split :
  (N.of_nat (List.length appStoreMetadata) <= 2 ^ 32 - 1)%N ->
  (forall k, In k (map fst (CalendarApps ++ ConferencingApps ++ PaymentApps)) ->
             array_index k = None) ->
  catalog =
  (array_entries appStoreMetadata ++
   CatalogMap.ALL_APPS_MAP [] CalendarApps ConferencingApps PaymentApps)%list.
Proof.
  intros Hlen Hkeys. unfold CatalogMap.ALL_APPS_MAP.
  rewrite (spread_array_entries _ Hlen).
  change (spread [] (array_entries (@nil App))) with (@nil (string * App)).
  rewrite <- (app_nil_r (array_entries appStoreMetadata)) at 1.
  pose proof (array_entries_indices appStoreMetadata Hlen) as Hpre.
  rewrite !(spread_after_indices _ _ _ Hpre); [reflexivity| | |];
    intros k Hk; apply Hkeys; rewrite !map_app, !in_app_iff; auto.
Qed.

(** X23. When no configuration key is an array index, [ALL_APPS] lists
    the app store's apps first, in their order, followed by what the
    configurations alone give; [getApps] then reports them in that order
    and length. *)
Theorem ALL_APPS_store_first (userCredentials : list Credential) :
  (N.of_nat (List.length appStoreMetadata) <= 2 ^ 32 - 1)%N ->
  (forall k, In k (map fst (CalendarApps ++ ConferencingApps ++ PaymentApps)) ->
             array_index k = None) ->
  ALL_APPS catalog =
    (appStoreMetadata ++
     ALL_APPS (CatalogMap.ALL_APPS_MAP [] CalendarApps ConferencingApps PaymentApps))%list /\
  firstn (List.length appStoreMetadata)
         (map ame_app (getApps catalog userCredentials)) = appStoreMetadata.
Proof.
  intros Hlen Hkeys.
  assert (Hall : ALL_APPS catalog =
                 (appStoreMetadata ++
                  ALL_APPS (CatalogMap.ALL_APPS_MAP [] CalendarApps ConferencingApps
                                                    PaymentApps))%list).
  { unfold ALL_APPS, JS.Object_values.
    rewrite (ALL_APPS_MAP_split Hlen Hkeys), map_app, map_snd_array_entries.
    reflexivity. }
  split; [exact Hall|].
  unfold getApps. rewrite map_map. simpl. rewrite map_id, Hall.
  rewrite firstn_app, Nat.sub_diag, firstn_all. simpl. apply app_nil_r.
Qed.

End CatalogTheorems.

(* ================================================================== *)
(** ** The further properties on the sample data *)
(* ================================================================== *)

Section MoreRuns.

Import JS Book.

Local Abbreviation run2 :=
  (getServerSideProps Sample.ssrInit Sample.getTranslation Sample.getLocationLabels
                      Sample.Date_toString Sample2.prisma).

Local Abbreviation abc_log :=
  [FetchDisposableLink "abc" (QOne "intro"); FetchUsers 7; FetchCredentials [7%Z]].

Local Abbreviation web3_log :=
  [FetchDisposableLink "web3" (QOne "intro"); FetchUsers 8; FetchCredentials [8%Z]].

Lemma getServerSideProps_link_not_string_witness :
  Sample2.load (mkContext (QMany ["abc"; "web3"]) (QOne "intro") QAbsent None) =
    (Throw ExpectedString, []).
Proof.
  apply (getServerSideProps_link_not_string
           Sample.ssrInit Sample.getTranslation Sample.getLocationLabels
           Sample.Date_toString Sample2.prisma
           (mkContext (QMany ["abc"; "web3"]) (QOne "intro") QAbsent None) []).
  intros link. discriminate.
Defined.

Lemma getServerSideProps_props_constants_witness :
  exists p log',
    Sample.load "abc" QAbsent = (Return (Props p), log') /\
    isDynamicGroupBooking p = false /\
    isDisposableBookingLink p = true.
Proof.
  eexists. eexists. split; [vm_compute; reflexivity|].
  match goal with
  | |- isDynamicGroupBooking ?p = _ /\ _ =>
      destruct (getServerSideProps_props_constants
                  Sample.ssrInit Sample.getTranslation Sample.getLocationLabels
                  Sample.Date_toString Sample.prisma
                  (Sample.context "abc" QAbsent) [] abc_log p eq_refl)
        as (Hdyn & Hflag & _)
  end.
  split; [exact Hdyn | exact Hflag].
Defined.

Lemma getServerSideProps_no_users_witness :
  Sample2.load (Sample.context "ghost" QAbsent) =
    (Return NotFound, [FetchDisposableLink "ghost" (QOne "intro"); FetchUsers 9]).
Proof.
  apply (getServerSideProps_no_users
           Sample.ssrInit Sample.getTranslation Sample.getLocationLabels
           Sample.Date_toString Sample2.prisma
           (Sample.context "ghost" QAbsent) [] "ghost"
           (Sample.link_of (Some 9%Z) (Some Sample.eventType30) false) 9);
    try reflexivity.
  discriminate.
Defined.

Lemma getServerSideProps_owner_without_eventType_witness :
  Sample2.load (Sample.context "bare" QAbsent) =
    (Return NotFound, [FetchDisposableLink "bare" (QOne "intro"); FetchUsers 7]).
Proof.
  apply (getServerSideProps_owner_without_eventType
           Sample.ssrInit Sample.getTranslation Sample.getLocationLabels
           Sample.Date_toString Sample2.prisma
           (Sample.context "bare" QAbsent) [] "bare"
           (Sample.link_of (Some 7%Z) None false) 7);
    try reflexivity.
  discriminate.
Defined.

Lemma getServerSideProps_owner_precedence_witness :
  et_userId Sample.eventType30 = Some 7%Z /\
  exists rest,
    snd (Sample.load "web3" QAbsent) =
      ([] ++ FetchDisposableLink "web3" (QOne "intro") :: FetchUsers 8 :: rest)%list /\
    (rest = [] \/ exists userIds, rest = [FetchCredentials userIds]).
Proof.
  split; [reflexivity|].
  apply (getServerSideProps_owner_precedence
           Sample.ssrInit Sample.getTranslation Sample.getLocationLabels
           Sample.Date_toString Sample.prisma
           (Sample.context "web3" QAbsent) [] "web3"
           (Sample.link_of (Some 8%Z) (Some Sample.eventType30) false) 8);
    try reflexivity.
  discriminate.
Defined.

Lemma getServerSideProps_live_link_witness :
  exists p,
    Sample.load "abc" QAbsent = (Return (Props p), ([] ++ abc_log)%list) /\
    profile_slug (profile p) = Some "ada" /\
    profile_image (profile p) = None /\
    eto_id (eventType p) = 30%Z /\
    eto_isWeb3Active (eventType p) =
      isWeb3Active_of (find_web3 (db_credential_findMany Sample.prisma [7%Z])).
Proof.
  apply (getServerSideProps_live_link
           Sample.ssrInit Sample.getTranslation Sample.getLocationLabels
           Sample.Date_toString Sample.prisma
           (Sample.context "abc" QAbsent) [] "abc"
           (Sample.link_of None (Some Sample.eventType30) false)
           Sample.eventType30 7 (Sample.host 7 "ada") []);
    try reflexivity.
  discriminate.
Defined.


Lemma getServerSideProps_isWeb3Active_value_witness :
  exists p log',
    Sample.load "web3" QAbsent = (Return (Props p), log') /\
    (eto_isWeb3Active (eventType p) = JBool false \/
     truthy (eto_isWeb3Active (eventType p)) = true).
Proof.
  eexists. eexists. split; [vm_compute; reflexivity|].
  match goal with
  | |- eto_isWeb3Active (eventType ?p) = _ \/ _ =>
      exact (proj1 (getServerSideProps_isWeb3Active_value
                      Sample.ssrInit Sample.getTranslation Sample.getLocationLabels
                      Sample.Date_toString Sample.prisma
                      (Sample.context "web3" QAbsent) [] web3_log p eq_refl))
  end.
Defined.

Lemma getServerSideProps_profile_witness :
  exists p log',
    Sample.load "web3" QAbsent = (Return (Props p), log') /\
    exists uid user rest,
      In (FetchUsers uid) log' /\
      db_user_findMany Sample.prisma uid = user :: rest /\
      profile_slug (profile p) = user_username user /\
      profile_eventName (profile p) = None /\
      (forall name, user_name user = Some name -> name <> EmptyString ->
                    profile_name (profile p) = Some name) /\
      (user_name user = None \/ user_name user = Some EmptyString ->
       profile_name (profile p) = user_username user).
Proof.
  eexists. eexists. split; [vm_compute; reflexivity|].
  match goal with
  | |- context [profile_slug (profile ?p)] =>
      exact (getServerSideProps_profile
               Sample.ssrInit Sample.getTranslation Sample.getLocationLabels
               Sample.Date_toString Sample.prisma
               (Sample.context "web3" QAbsent) [] web3_log p eq_refl)
  end.
Defined.

Lemma getBooking_behaviour_witness :
  getBooking Sample.prisma (Sample.context "abc" (QOne "resched-1")) [] =
    (Return (Some Sample.booking1), [FetchBooking "resched-1"]) /\
  getBooking Sample.prisma (Sample.context "abc" QAbsent) [] =
    (Throw ExpectedString, []).
Proof.
  split.
  - exact (proj1 (getBooking_behaviour Sample.prisma
                    (Sample.context "abc" (QOne "resched-1")) [])
                 "resched-1" eq_refl).
  - apply (proj2 (getBooking_behaviour Sample.prisma
                    (Sample.context "abc" QAbsent) [])).
    intros uid. discriminate.
Defined.

End MoreRuns.

Section CatalogRuns.

Import AppUtils CatalogMap.

Lemma sample2_object_like :
  object_like Sample2.CalendarApps /\
  object_like Sample2.ConferencingApps /\
  object_like Sample2.PaymentApps.
Proof.
  unfold object_like. simpl.
  repeat split; repeat constructor; simpl; intuition discriminate.
Qed.

Lemma ALL_APPS_MAP_precedence_witness :
  JS.own "daily_video" Sample2.catalog = Some Sample.daily_video.
Proof.
  destruct sample2_object_like as (Hc & Hf & Hp).
  exact (ALL_APPS_MAP_precedence
           Sample2.appStoreMetadata Sample2.CalendarApps Sample2.ConferencingApps
           Sample2.PaymentApps "daily_video" Hc Hf Hp).
Defined.

Lemma getAppName_app_store_app_witness :
  getAppName Sample2.catalog "0" = JS.Return (JS.Str "Zoom Video") /\
  getAppName Sample2.catalog "zoom_video" = JS.Throw JS.TypeError.
Proof.
  destruct (getAppName_app_store_app
              Sample2.appStoreMetadata Sample2.CalendarApps Sample2.ConferencingApps
              Sample2.PaymentApps 0 Sample.zoom_video eq_refl) as [Hpos Htype].
  split.
  - apply Hpos; simpl; intuition discriminate.
  - apply Htype; simpl; try (intuition discriminate).
    + intros j Hj. destruct j as [|[|j]]; [discriminate | discriminate | lia].
    + unfold inherited. simpl. intuition discriminate.
Defined.

Lemma ALL_APPS_store_first_witness :
  firstn 2 (map ame_app (getApps Sample2.catalog Sample.userCredentials)) =
    [Sample.zoom_video; Sample.stripe_payment].
Proof.
  apply (ALL_APPS_store_first
           Sample2.appStoreMetadata Sample2.CalendarApps Sample2.ConferencingApps
           Sample2.PaymentApps Sample.userCredentials).
  - vm_compute. discriminate.
  - intros k Hk. simpl in Hk.
    repeat (destruct Hk as [<- | Hk]; [reflexivity|]). destruct Hk.
Defined.

End CatalogRuns.
